(** * TaskFlow: the task store and its REST adapter

    A shallow embedding of the server side of the task tracker:

    - [shared/schema.ts]: the [tasks] table and [insertTaskSchema];
    - [server/storage.ts]: [DatabaseStorage] ([getAllTasks], [createTask],
      [updateTask], [deleteTask]);
    - [server/routes.ts]: the four handlers registered by [registerRoutes].

    The relational engine is a table: a list of rows in insertion order
    together with the next value of the [serial] sequence.  Every
    statement is atomic: it either returns and leaves the new table, or
    throws and leaves the table as it was.  The engine refuses what its
    column types exclude: an id parameter that is not a 32-bit integer,
    a text with the code unit 0, NULL in a NOT NULL column.  The sequence
    is taken not to run out.  Timestamps are integers (an instant on the
    clock that [defaultNow()] and [new Date()] read); the instant at
    which a request is served is an explicit argument [now].

    A string is the sequence of its UTF-16 code units, each below 256;
    strings with other code units are outside the model.  A request
    carries no conditional headers. *)

From Stdlib Require Import ZArith List String Ascii Bool Lia.
From Stdlib Require Import Sorting.Permutation Sorting.Sorted.
From Stdlib Require Import DecimalString DecimalN DecimalPos.
Import ListNotations.
Open Scope string_scope.
Open Scope Z_scope.

(** ** JavaScript values *)

(** What [express.json()] leaves in [req.body], and what a property read
    can yield.  Numbers are the integral JSON numbers. *)
#[warnings="-register-all"]
Inductive jsval : Type :=
| JUndefined
| JNull
| JBool (b : bool)
| JNum (n : Z)
| JStr (s : string)
| JArr (items : list jsval)
| JObj (fields : list (string * jsval)).

(** ToBoolean, the test of [cond ? a : b]. *)
Definition truthy (v : jsval) : bool :=
  match v with
  | JUndefined | JNull => false
  | JBool b => b
  | JNum n => negb (n =? 0)
  | JStr s => negb (s =? "")%string
  | JArr _ | JObj _ => true
  end.

(** [v !== undefined]. *)
Definition notUndefined (v : jsval) : bool :=
  match v with
  | JUndefined => false
  | _ => true
  end.

(** Own property of a parsed JSON object. *)
Fixpoint lookupField (fields : list (string * jsval)) (k : string) : jsval :=
  match fields with
  | [] => JUndefined
  | (k', v) :: rest => if (k' =? k)%string then v else lookupField rest k
  end.

(** A JavaScript number as the handlers meet it: the result of [parseInt]. *)
Inductive number : Type :=
| NaN
| Num (z : Z)
| Infinity (negative : bool).

Definition isNaN (n : number) : bool :=
  match n with
  | NaN => true
  | _ => false
  end.

(** ** parseInt (ECMAScript, radix argument absent)

    Strings are sequences of code units 0..255. *)

Definition isWhiteSpace (c : ascii) : bool :=
  let n := Z.of_nat (nat_of_ascii c) in
  ((9 <=? n) && (n <=? 13)) || (n =? 32) || (n =? 160).

Fixpoint trimStart (s : string) : string :=
  match s with
  | String c rest => if isWhiteSpace c then trimStart rest else s
  | EmptyString => EmptyString
  end.

(** Value of a code unit as a digit: 0-9, then a-z and A-Z for 10..35. *)
Definition digitValue (c : ascii) : option Z :=
  let n := Z.of_nat (nat_of_ascii c) in
  if (48 <=? n) && (n <=? 57) then Some (n - 48)
  else if (97 <=? n) && (n <=? 122) then Some (n - 87)
  else if (65 <=? n) && (n <=? 90) then Some (n - 55)
  else None.

Definition radixDigit (R : Z) (c : ascii) : option Z :=
  match digitValue c with
  | Some d => if d <? R then Some d else None
  | None => None
  end.

(** The digits of the longest prefix of [s] made of radix-[R] digits. *)
Fixpoint takeDigits (R : Z) (s : string) : list Z :=
  match s with
  | String c rest =>
      match radixDigit R c with
      | Some d => d :: takeDigits R rest
      | None => []
      end
  | EmptyString => []
  end.

Definition mathInt (R : Z) (ds : list Z) : Z :=
  fold_left (fun acc d => acc * R + d) ds 0.

(** The Number value of a non-negative integer: the nearest double, ties
    to even, infinite from 2^1024 on.  Integers below 2^53 are exact.
    (Past twenty significant digits an implementation may round the
    digits first; the model does not.) *)
Definition toDouble (n : Z) : option Z :=
  if n <? 2 ^ 53 then Some n
  else
    let e := Z.log2 n - 52 in
    let q := n / 2 ^ e in
    let r := n mod 2 ^ e in
    let half := 2 ^ (e - 1) in
    let q' := if r <? half then q
              else if half <? r then q + 1
              else if Z.even q then q else q + 1 in
    let m := q' * 2 ^ e in
    if 2 ^ 1024 <=? m then None else Some m.

Definition hasHexPrefix (s : string) : bool :=
  match s with
  | String "0" (String "x" _) => true
  | String "0" (String "X" _) => true
  | _ => false
  end.

Definition parseInt (input : string) : number :=
  let S0 := trimStart input in
  let negative := match S0 with String "-" _ => true | _ => false end in
  let S1 := match S0 with
            | String "-" rest => rest
            | String "+" rest => rest
            | _ => S0
            end in
  let R := if hasHexPrefix S1 then 16 else 10 in
  let S2 := if hasHexPrefix S1 then substring 2 (length S1 - 2) S1 else S1 in
  match takeDigits R S2 with
  | [] => NaN
  | ds =>
      match toDouble (mathInt R ds) with
      | Some m => Num (if negative then - m else m)
      | None => Infinity negative
      end
  end.

(** ** The schema ([shared/schema.ts]) *)

(** A row of [tasks]: [serial] id, [text] title, [boolean] completed
    (default false), [timestamp] createdAt (default now), nullable
    [timestamp] completedAt. *)
Record Task : Type := mkTask {
  id : Z;
  title : string;
  completed : bool;
  createdAt : Z;
  completedAt : option Z
}.

(** [InsertTask]: what [insertTaskSchema] lets through, the title alone. *)
Record InsertTask : Type := mkInsertTask {
  ins_title : string
}.

(** The object handed to [updateTask].  A field is absent ([None]) or
    carries the value the handler put there; the handler's object is typed
    [any], so [completed] carries whatever JavaScript value the body had. *)
Record Updates : Type := mkUpdates {
  upd_completed : option jsval;
  upd_completedAt : option (option Z)
}.

Definition noUpdates : Updates := mkUpdates None None.

(** The table and the sequence behind [serial]. *)
Record DB : Type := mkDB {
  rows : list Task;
  nextId : Z
}.

Definition emptyDB : DB := mkDB [] 1.

(** ** Statements and handlers: state and exceptions *)

Inductive thrown : Type :=
| ZodError
| TypeError
| StoreError.

Inductive outcome (A : Type) : Type :=
| Returned (a : A) (db : DB)
| Threw (e : thrown) (db : DB).

Arguments Returned {A} a db.
Arguments Threw {A} e db.

Definition Async (A : Type) : Type := DB -> outcome A.

Definition ret {A} (a : A) : Async A := fun db => Returned a db.

Definition throw {A} (e : thrown) : Async A := fun db => Threw e db.

Definition bind {A B} (m : Async A) (k : A -> Async B) : Async B :=
  fun db =>
    match m db with
    | Returned a db' => k a db'
    | Threw e db' => Threw e db'
    end.

(** [try { body } catch (error) { handler }]. *)
Definition tryCatch {A} (body : Async A) (handler : thrown -> Async A) : Async A :=
  fun db =>
    match body db with
    | Returned a db' => Returned a db'
    | Threw e db' => handler e db'
    end.

Declare Scope async_scope.
Delimit Scope async_scope with async.
Notation "x <- m ;; k" := (bind m (fun x => k))
  (at level 100, m at next level, right associativity) : async_scope.
Open Scope async_scope.

Definition stateOf {A} (o : outcome A) : DB :=
  match o with
  | Returned _ db => db
  | Threw _ db => db
  end.

Definition valueOf {A} (o : outcome A) : option A :=
  match o with
  | Returned a _ => Some a
  | Threw _ _ => None
  end.

(** ** Validation ([insertTaskSchema.parse]) and property reads *)

(** [createInsertSchema(tasks).pick({ title: true })] is an object schema
    whose one key is a string: the column is [text(...).notNull()], which
    gives the string schema with no length bound.  Other keys are dropped. *)
Definition insertTaskSchema_parse (body : jsval) : Async InsertTask :=
  match body with
  | JObj fields =>
      match lookupField fields "title" with
      | JStr s => ret (mkInsertTask s)
      | _ => throw ZodError
      end
  | _ => throw ZodError
  end.

(** [req.body.completed]: a read of a property that no prototype defines.
    It throws on [undefined] and [null] and is [undefined] on every value
    that is not an object with that key. *)
Definition readProperty (v : jsval) (k : string) : Async jsval :=
  match v with
  | JUndefined | JNull => throw TypeError
  | JObj fields => ret (lookupField fields k)
  | _ => ret JUndefined
  end.

(** ** The storage layer ([DatabaseStorage]) *)

(** Precedence under [ORDER BY completed ASC, created_at DESC]: [a] may
    stand before [b]. *)
Definition orderBy_completed_createdAt (a b : Task) : bool :=
  match completed a, completed b with
  | false, true => true
  | true, false => false
  | _, _ => createdAt b <=? createdAt a
  end.

Fixpoint insertSorted (le : Task -> Task -> bool) (t : Task) (l : list Task)
  : list Task :=
  match l with
  | [] => [t]
  | u :: rest => if le t u then t :: u :: rest else u :: insertSorted le t rest
  end.

(** The engine's sort.  SQL leaves open the order of rows that tie on
    both keys; here they keep their table order. *)
Fixpoint orderBy (le : Task -> Task -> bool) (l : list Task) : list Task :=
  match l with
  | [] => []
  | t :: rest => insertSorted le t (orderBy le rest)
  end.

Definition getAllTasks : Async (list Task) :=
  fun db => Returned (orderBy orderBy_completed_createdAt (rows db)) db.

(** A [text] value cannot hold the code unit 0. *)
Fixpoint hasNul (s : string) : bool :=
  match s with
  | EmptyString => false
  | String c rest => (nat_of_ascii c =? 0)%nat || hasNul rest
  end.

(** [insert(tasks).values(task).returning()]: the sequence gives the id,
    the column defaults give the rest.  The engine refuses a title that
    the [text] column cannot hold, and the statement throws. *)
Definition createTask (now : Z) (task : InsertTask) : Async Task :=
  fun db =>
    if hasNul (ins_title task) then Threw StoreError db
    else
      let newTask := mkTask (nextId db) (ins_title task) false now None in
      Returned newTask (mkDB (rows db ++ [newTask]) (nextId db + 1)).

(** [eq(tasks.id, id)], on a row. *)
Definition idEq (n : number) (t : Task) : bool :=
  match n with
  | Num z => id t =? z
  | _ => false
  end.

(** The values of the [serial] column: the 32-bit integers. *)
Definition inInt4 (z : Z) : bool :=
  (-2147483648 <=? z) && (z <=? 2147483647).

(** Whether the engine takes [n] as the parameter of [eq(tasks.id, id)].
    It refuses a number that is not a value of the id column (NaN, an
    infinity, an integer beyond 32 bits), and the statement then throws.
    The ids that the table holds are values of the column: a table of
    the model may hold any integer as an id, and the parameter that
    equals one of them is taken.  On the tables the server reaches the
    test is [inInt4] alone ([idParameterTaken_issued]). *)
Definition idParameterTaken (n : number) (l : list Task) : bool :=
  match n with
  | Num z => inInt4 z || existsb (idEq n) l
  | _ => false
  end.

(** A field set to [undefined] is dropped by the query builder. *)
Definition definedValue (f : option jsval) : option jsval :=
  match f with
  | Some JUndefined => None
  | _ => f
  end.

Section Storage.

(** What the driver and the engine make of a value that is neither a
    boolean nor null when it is bound to the boolean column: a column
    value, or [None] when the statement is refused. *)
Variable bindBoolean : jsval -> option bool.

(** The value a [completed] parameter gives the column: [Some None] is
    SQL NULL. *)
Definition columnOfCompleted (v : jsval) : option (option bool) :=
  match v with
  | JBool b => Some (Some b)
  | JNull => Some None
  | _ => option_map Some (bindBoolean v)
  end.

(** One row under [set(updates)]: [None] when the row would break the
    NOT NULL constraint of [completed]. *)
Definition setRow (c : option (option bool)) (ca : option (option Z)) (t : Task)
  : option Task :=
  match c with
  | Some None => None
  | _ =>
      Some (mkTask (id t) (title t)
              (match c with Some (Some b) => b | _ => completed t end)
              (createdAt t)
              (match ca with Some x => x | None => completedAt t end))
  end.

(** The rows of the table after the update and, beside them, the rows
    the statement returns; [None] when a row refuses the update, which
    undoes the statement. *)
Fixpoint updateRows (n : number) (c : option (option bool))
  (ca : option (option Z)) (l : list Task) : option (list Task * list Task) :=
  match l with
  | [] => Some ([], [])
  | t :: rest =>
      match updateRows n c ca rest with
      | None => None
      | Some (rest', hit) =>
          if idEq n t then
            match setRow c ca t with
            | Some t' => Some (t' :: rest', t' :: hit)
            | None => None
            end
          else Some (t :: rest', hit)
      end
  end.

(** [update(tasks).set(updates).where(eq(tasks.id, id)).returning()],
    then [updatedTask || undefined] on the first returned row.  The
    builder throws when nothing is left to set, and the engine when it
    refuses a parameter or a row. *)
Definition updateTask (n : number) (updates : Updates) : Async (option Task) :=
  fun db =>
    match definedValue (upd_completed updates), upd_completedAt updates with
    | None, None => Threw StoreError db
    | c, ca =>
        match match c with
              | Some v => option_map Some (columnOfCompleted v)
              | None => Some None
              end with
        | None => Threw StoreError db
        | Some col =>
            if idParameterTaken n (rows db) then
              match updateRows n col ca (rows db) with
              | Some (rows', hit) =>
                  Returned (hd_error hit) (mkDB rows' (nextId db))
              | None => Threw StoreError db
              end
            else Threw StoreError db
        end
    end.

End Storage.

(** [delete(tasks).where(eq(tasks.id, id)).returning()], then
    [result.length > 0]; the engine throws when it refuses the
    parameter. *)
Definition deleteTask (n : number) : Async bool :=
  fun db =>
    if idParameterTaken n (rows db) then
      let result := filter (idEq n) (rows db) in
      Returned (0 <? Z.of_nat (List.length result))
               (mkDB (filter (fun t => negb (idEq n t)) (rows db)) (nextId db))
    else Threw StoreError db.

(** ** The routes ([registerRoutes]) *)

Inductive payload : Type :=
| TasksJson (tasks : list Task)
| TaskJson (task : Task)
| MessageJson (message : string) (withErrors : bool)
| NoBody.

Record Response : Type := mkResponse {
  status : Z;
  body : payload
}.

(** GET /api/tasks *)
Definition get_api_tasks : Async Response :=
  tryCatch
    (tasks <- getAllTasks ;;
     ret (mkResponse 200 (TasksJson tasks)))
    (fun _ => ret (mkResponse 500 (MessageJson "Failed to fetch tasks" false))).

(** POST /api/tasks *)
Definition post_api_tasks (now : Z) (reqBody : jsval) : Async Response :=
  tryCatch
    (validatedData <- insertTaskSchema_parse reqBody ;;
     task <- createTask now validatedData ;;
     ret (mkResponse 201 (TaskJson task)))
    (fun error =>
       match error with
       | ZodError => ret (mkResponse 400 (MessageJson "Invalid task data" true))
       | _ => ret (mkResponse 500 (MessageJson "Failed to create task" false))
       end).

Section Routes.

Variable bindBoolean : jsval -> option bool.

(** The [updates] object the PATCH handler builds from the body. *)
Definition patchUpdates (now : Z) (reqCompleted : jsval) : Updates :=
  if notUndefined reqCompleted
  then mkUpdates (Some reqCompleted)
                 (Some (if truthy reqCompleted then Some now else None))
  else noUpdates.

(** The end of the PATCH handler: 404 when the store returned nothing. *)
Definition patchRespond (task : option Task) : Async Response :=
  match task with
  | None => ret (mkResponse 404 (MessageJson "Task not found" false))
  | Some t => ret (mkResponse 200 (TaskJson t))
  end.

(** Its catch block. *)
Definition patchFailed (error : thrown) : Async Response :=
  ret (mkResponse 500 (MessageJson "Failed to update task" false)).

(** PATCH /api/tasks/:id *)
Definition patch_api_tasks_id (now : Z) (paramsId : string) (reqBody : jsval)
  : Async Response :=
  tryCatch
    (let n := parseInt paramsId in
     if isNaN n then ret (mkResponse 400 (MessageJson "Invalid task ID" false))
     else
       reqCompleted <- readProperty reqBody "completed" ;;
       task <- updateTask bindBoolean n (patchUpdates now reqCompleted) ;;
       patchRespond task)
    patchFailed.

(** DELETE /api/tasks/:id *)
Definition delete_api_tasks_id (paramsId : string) : Async Response :=
  tryCatch
    (let n := parseInt paramsId in
     if isNaN n then ret (mkResponse 400 (MessageJson "Invalid task ID" false))
     else
       deleted <- deleteTask n ;;
       if negb deleted
       then ret (mkResponse 404 (MessageJson "Task not found" false))
       else ret (mkResponse 204 NoBody))
    (fun _ => ret (mkResponse 500 (MessageJson "Failed to delete task" false))).

(** ** Requests and runs of the server *)

Inductive Request : Type :=
| GET_tasks
| POST_tasks (reqBody : jsval)
| PATCH_task (paramsId : string) (reqBody : jsval)
| DELETE_task (paramsId : string).

Definition handle (now : Z) (r : Request) : Async Response :=
  match r with
  | GET_tasks => get_api_tasks
  | POST_tasks b => post_api_tasks now b
  | PATCH_task i b => patch_api_tasks_id now i b
  | DELETE_task i => delete_api_tasks_id i
  end.

(** The store after a request served at instant [fst ev]. *)
Definition step (db : DB) (ev : Z * Request) : DB :=
  stateOf (handle (fst ev) (snd ev) db).

(** The store after a sequence of requests, from the empty table. *)
Definition run (trace : list (Z * Request)) : DB :=
  fold_left step trace emptyDB.

End Routes.

(** ** The operations of the task store, as requests

    [create], [setCompletion] and [delete] of the specification, each sent
    through its route with a body of the documented shape. *)

Inductive Command : Type :=
| Create (title : string)
| SetCompletion (paramsId : string) (c : bool)
| Delete (paramsId : string)
| ListAll.

Definition createBody (x : string) : jsval := JObj [("title", JStr x)].

Definition completionBody (c : bool) : jsval := JObj [("completed", JBool c)].

Definition requestOf (c : Command) : Request :=
  match c with
  | Create x => POST_tasks (createBody x)
  | SetCompletion i c => PATCH_task i (completionBody c)
  | Delete i => DELETE_task i
  | ListAll => GET_tasks
  end.

Definition requestsOf (cs : list (Z * Command)) : list (Z * Request) :=
  map (fun ev => (fst ev, requestOf (snd ev))) cs.

(** ** Predicates of the specification *)

(** [completedAt] is present exactly when [completed] is true. *)
Definition stampedIffCompleted (t : Task) : Prop :=
  completed t = true <-> completedAt t <> None.

Definition lifecycleInvariant (db : DB) : Prop :=
  forall t, In t (rows db) -> stampedIffCompleted t.

(** The two-key order of [list()]: pending before completed, and within a
    group the later creation first. *)
Definition listPrecedes (a b : Task) : Prop :=
  (completed a = true -> completed b = true) /\
  (completed a = completed b -> createdAt b <= createdAt a).

(** Every id in the table was issued by the sequence. *)
Definition idsIssued (db : DB) : Prop :=
  Forall (fun t => 1 <= id t < nextId db) (rows db).

Definition findTask (z : Z) (db : DB) : option Task :=
  find (fun t => id t =? z) (rows db).

(** [db'] is a later state of the sequence and the table of [db]: the
    sequence has not gone back, and a row of [db'] carries the id of a row
    of [db] or an id issued in between. *)
Definition futureOf (db db' : DB) : Prop :=
  nextId db <= nextId db' /\
  forall t', In t' (rows db') ->
             (exists t, In t (rows db) /\ id t = id t') \/
             nextId db <= id t' < nextId db'.

(** A row after [set({ completed: b, completedAt: ca })]. *)
Definition withCompletion (b : bool) (ca : option Z) (t : Task) : Task :=
  mkTask (id t) (title t) b (createdAt t) ca.

(** The digit prefix of a path id, read in base ten. *)
Definition isDecimalDigit (c : ascii) : bool :=
  let n := Z.of_nat (nat_of_ascii c) in (48 <=? n) && (n <=? 57).

Fixpoint allDecimalDigits (s : string) : bool :=
  match s with
  | EmptyString => true
  | String c rest => isDecimalDigit c && allDecimalDigits rest
  end.

Fixpoint decimalValueFrom (acc : Z) (s : string) : Z :=
  match s with
  | EmptyString => acc
  | String c rest =>
      decimalValueFrom (acc * 10 + (Z.of_nat (nat_of_ascii c) - 48)) rest
  end.

Definition decimalValue (s : string) : Z := decimalValueFrom 0 s.

(** The digits of a string of decimal digits. *)
Fixpoint decimalDigits (s : string) : list Z :=
  match s with
  | EmptyString => []
  | String c rest => (Z.of_nat (nat_of_ascii c) - 48) :: decimalDigits rest
  end.

(** The driver that refuses every value that is not a boolean. *)
Definition strictBoolean (v : jsval) : option bool := None.

(** A title of [n] letters a. *)
Fixpoint repeatA (n : nat) : string :=
  match n with
  | O => EmptyString
  | S k => String "a" (repeatA k)
  end.

(** ** Numbers as text *)

(** [String(n)], as in a template literal, for an integer of magnitude
    below 10^21: its decimal digits without leading zeros, with "-" in
    front when it is negative. *)
Definition numberToString (n : Z) : string :=
  NilZero.string_of_int (Z.to_int n).

(** ** [updateTaskSchema] ([shared/schema.ts]) *)

(** [createInsertSchema(tasks).pick({ completed: true })]: an object
    schema whose [completed], a column with a default, is an optional
    boolean. *)
Definition updateTaskSchema_accepts (reqBody : jsval) : bool :=
  match reqBody with
  | JObj fields =>
      match lookupField fields "completed" with
      | JUndefined | JBool _ => true
      | _ => false
      end
  | _ => false
  end.

(** ** The entry point ([server/index.ts]) *)

(** A string as its code units. *)
Definition codeUnits (s : string) : list Z :=
  map (fun c => Z.of_nat (nat_of_ascii c)) (list_ascii_of_string s).

(** The one code unit of the horizontal ellipsis, U+2026. *)
Definition ellipsis : Z := 8230.

(** [path.startsWith("/api")]. *)
Definition startsWithApi (path : string) : bool :=
  match path with
  | String "/" (String "a" (String "p" (String "i" _))) => true
  | _ => false
  end.

(** What [res.json] was called with, if it was: every route answers
    through it except the 204 of DELETE, which goes through [send()]. *)
Definition capturedJsonResponse (res : Response) : option payload :=
  match body res with
  | NoBody => None
  | b => Some b
  end.

Section RequestLogger.

(** [JSON.stringify] on a response body. *)
Variable stringify : payload -> string.

(** The line the logging middleware builds on [finish], before it is
    cut: an object or array is always truthy, so a captured body is
    always appended. *)
Definition fullLogLine (method path : string) (res : Response) (duration : Z)
  : string :=
  let logLine :=
    method ++ " " ++ path ++ " " ++ numberToString (status res)
           ++ " in " ++ numberToString duration ++ "ms" in
  match capturedJsonResponse res with
  | Some bodyJson => logLine ++ " :: " ++ stringify bodyJson
  | None => logLine
  end.

(** [if (logLine.length > 80) logLine = logLine.slice(0, 79) + "..."],
    with the ellipsis character. *)
Definition truncateLogLine (logLine : list Z) : list Z :=
  if 80 <? Z.of_nat (List.length logLine)
  then (firstn 79 logLine ++ [ellipsis])%list
  else logLine.

(** The messages the middleware hands to [log] for one finished request. *)
Definition requestLogger (method path : string) (res : Response) (duration : Z)
  : list (list Z) :=
  if startsWithApi path
  then [truncateLogLine (codeUnits (fullLogLine method path res duration))]
  else [].

End RequestLogger.

(** ** The client ([client/src]) *)


(** [res.ok]. *)
Definition resOk (res : Response) : bool :=
  (200 <=? status res) && (status res <=? 299).

(** How a mutation settles: with the parsed response, or with the error
    that [throwIfResNotOk] throws, made of the status and the text of
    the response. *)
Inductive settled : Type :=
| Fulfilled (res : Response)
| Rejected (status : Z) (text : payload).

(** [throwIfResNotOk], after [fetch]. *)
Definition throwIfResNotOk (res : Response) : settled :=
  if resOk res then Fulfilled res else Rejected (status res) (body res).

Section Client.

Variable bindBoolean : jsval -> option bool.

(** [apiRequest(method, url, data)] against this server. *)
Definition apiRequest (now : Z) (r : Request) : Async settled :=
  res <- handle bindBoolean now r ;;
  ret (throwIfResNotOk res).


Definition updateTaskMutation (now : Z) (taskId : Z) (c : bool) : Async settled :=
  apiRequest now (PATCH_task (numberToString taskId) (completionBody c)).

Definition deleteTaskMutation (now : Z) (taskId : Z) : Async settled :=
  apiRequest now (DELETE_task (numberToString taskId)).

(** [toggleTask(id, completed)] of the home page. *)
Definition toggleTask (now : Z) (taskId : Z) (c : bool) : Async settled :=
  updateTaskMutation now taskId (negb c).

(** [handleDeleteTask(id)]: nothing is sent unless the user confirms. *)
Definition handleDeleteTask (confirmed : bool) (now : Z) (taskId : Z)
  : Async (option settled) :=
  if confirmed
  then (r <- deleteTaskMutation now taskId ;; ret (Some r))
  else ret None.


End Client.

(** The comparator of [sortedTasks]. *)
Definition compareTasks (a b : Task) : Z :=
  if Bool.eqb (completed a) (completed b)
  then createdAt b - createdAt a
  else if completed a then 1 else -1.

(** [[...tasks].sort(compare)]: the sort is stable. *)
Definition sortedTasks (tasks : list Task) : list Task :=
  orderBy (fun a b => compareTasks a b <=? 0) tasks.

Definition pendingTasks (tasks : list Task) : list Task :=
  filter (fun task => negb (completed task)) (sortedTasks tasks).

Definition completedTasks (tasks : list Task) : list Task :=
  filter (fun task => completed task) (sortedTasks tasks).

(** [formatTimeAgo], on the two instants in milliseconds. *)
Definition formatTimeAgo (nowMs pastMs : Z) : string :=
  let diffMs := nowMs - pastMs in
  let diffHours := diffMs / (1000 * 60 * 60) in
  let diffDays := diffHours / 24 in
  if 0 <? diffDays then
    if diffDays =? 1 then "1 day ago"
    else numberToString diffDays ++ " days ago"
  else if 0 <? diffHours then
    if diffHours =? 1 then "1 hour ago"
    else numberToString diffHours ++ " hours ago"
  else "Just now".

(** ** Toasts ([client/src/hooks/use-toast.ts]) *)

Definition TOAST_LIMIT : nat := 1.

Definition MAX_SAFE_INTEGER : Z := 2 ^ 53 - 1.

(** A toast with the props this application passes; an absent prop is
    [None]. *)
Record ToasterToast : Type := mkToast {
  toast_id : string;
  toast_title : option string;
  toast_description : option string;
  toast_variant : option string;
  toast_open : option bool
}.

(** [Partial<ToasterToast>], the payload of an update. *)
Record PartialToast : Type := mkPartialToast {
  part_id : option string;
  part_title : option string;
  part_description : option string;
  part_variant : option string;
  part_open : option bool
}.

(** [Omit<ToasterToast, "id">], the argument of [toast]. *)
Record ToastProps : Type := mkToastProps {
  props_title : option string;
  props_description : option string;
  props_variant : option string
}.

Inductive Action : Type :=
| ADD_TOAST (toast : ToasterToast)
| UPDATE_TOAST (toast : PartialToast)
| DISMISS_TOAST (toastId : option string)
| REMOVE_TOAST (toastId : option string).

(** The variables of the module: the counter of [genId], the keys of
    the map of pending removal timers in insertion order, and the state
    the listeners are told of. *)
Record ToastModule : Type := mkToastModule {
  count : Z;
  toastTimeouts : list string;
  memoryState : list ToasterToast
}.

Definition initialToastModule : ToastModule := mkToastModule 0 [] [].

(** [addToRemoveQueue]: at most one timer per toast. *)
Definition addToRemoveQueue (toastId : string) (m : ToastModule) : ToastModule :=
  if existsb (String.eqb toastId) (toastTimeouts m)
  then m
  else mkToastModule (count m) (toastTimeouts m ++ [toastId]) (memoryState m).

Definition orPrevious {A} (new old : option A) : option A :=
  match new with
  | Some x => Some x
  | None => old
  end.

(** [{ ...t, ...action.toast }]. *)
Definition mergeToast (t : ToasterToast) (p : PartialToast) : ToasterToast :=
  mkToast
    (match part_id p with Some i => i | None => toast_id t end)
    (orPrevious (part_title p) (toast_title t))
    (orPrevious (part_description p) (toast_description t))
    (orPrevious (part_variant p) (toast_variant t))
    (orPrevious (part_open p) (toast_open t)).

Definition closeToast (t : ToasterToast) : ToasterToast :=
  mkToast (toast_id t) (toast_title t) (toast_description t)
          (toast_variant t) (Some false).

(** [reducer], with the timers its DISMISS case starts. *)
Definition reducer (m : ToastModule) (action : Action) : ToastModule :=
  match action with
  | ADD_TOAST toast =>
      mkToastModule (count m) (toastTimeouts m)
                    (firstn TOAST_LIMIT (toast :: memoryState m))
  | UPDATE_TOAST p =>
      mkToastModule (count m) (toastTimeouts m)
        (map (fun t =>
                match part_id p with
                | Some i => if (toast_id t =? i)%string then mergeToast t p else t
                | None => t
                end)
             (memoryState m))
  | DISMISS_TOAST toastId =>
      let queued :=
        match toastId with
        | Some i =>
            if (i =? "")%string
            then fold_left (fun acc t => addToRemoveQueue (toast_id t) acc)
                           (memoryState m) m
            else addToRemoveQueue i m
        | None =>
            fold_left (fun acc t => addToRemoveQueue (toast_id t) acc)
                      (memoryState m) m
        end in
      mkToastModule (count queued) (toastTimeouts queued)
        (map (fun t =>
                match toastId with
                | Some i => if (toast_id t =? i)%string then closeToast t else t
                | None => closeToast t
                end)
             (memoryState m))
  | REMOVE_TOAST None => mkToastModule (count m) (toastTimeouts m) []
  | REMOVE_TOAST (Some i) =>
      mkToastModule (count m) (toastTimeouts m)
        (filter (fun t => negb (toast_id t =? i)%string) (memoryState m))
  end.

(** [dispatch]; the listeners only read the new state. *)
Definition dispatch (action : Action) (m : ToastModule) : ToastModule :=
  reducer m action.

Definition genId (m : ToastModule) : string * ToastModule :=
  let c := (count m + 1) mod MAX_SAFE_INTEGER in
  (numberToString c, mkToastModule c (toastTimeouts m) (memoryState m)).

(** [toast(props)]: the id it returns and the module afterwards. *)
Definition toast (props : ToastProps) (m : ToastModule) : string * ToastModule :=
  let (i, m1) := genId m in
  (i, dispatch (ADD_TOAST (mkToast i (props_title props)
                             (props_description props)
                             (props_variant props) (Some true))) m1).

(** The [dismiss] that [toast] returns and hands to [onOpenChange]. *)
Definition dismiss (i : string) (m : ToastModule) : ToastModule :=
  dispatch (DISMISS_TOAST (Some i)) m.

(** The callback of a removal timer when it fires. *)
Definition removeTimerFires (toastId : string) (m : ToastModule) : ToastModule :=
  dispatch (REMOVE_TOAST (Some toastId))
    (mkToastModule (count m)
       (filter (fun k => negb (k =? toastId)%string) (toastTimeouts m))
       (memoryState m)).

(** The toasts of [useTaskMutations], by mutation and by how it settled. *)
Inductive mutationKind : Type :=
| CreateTaskMutation
| UpdateTaskMutation (c : bool)
| DeleteTaskMutation.

Definition destructive : option string := Some "destructive".

(** The bytes of the party popper that ends "Great job!". *)
Definition partyPopper : string :=
  String (ascii_of_nat 240) (String (ascii_of_nat 159)
    (String (ascii_of_nat 142) (String (ascii_of_nat 137) EmptyString))).

Definition onSuccessToast (k : mutationKind) : ToastProps :=
  match k with
  | CreateTaskMutation =>
      mkToastProps (Some "Success") (Some "Task added successfully!") None
  | UpdateTaskMutation c =>
      mkToastProps
        (Some (if c then "Task completed!" else "Task marked as pending"))
        (Some (if c then "Great job! " ++ partyPopper
               else "Task moved back to pending"))
        None
  | DeleteTaskMutation =>
      mkToastProps (Some "Task deleted")
                   (Some "The task has been removed successfully.") None
  end.

Definition onErrorToast (k : mutationKind) : ToastProps :=
  match k with
  | CreateTaskMutation =>
      mkToastProps (Some "Error")
                   (Some "Failed to add task. Please try again.") destructive
  | UpdateTaskMutation _ =>
      mkToastProps (Some "Error")
                   (Some "Failed to update task. Please try again.") destructive
  | DeleteTaskMutation =>
      mkToastProps (Some "Error")
                   (Some "Failed to delete task. Please try again.") destructive
  end.

(** [onSuccess] or [onError], as the mutation settled. *)
Definition onSettled (k : mutationKind) (r : settled) (m : ToastModule)
  : ToastModule :=
  match r with
  | Fulfilled _ => snd (toast (onSuccessToast k) m)
  | Rejected _ _ => snd (toast (onErrorToast k) m)
  end.

(** * Properties *)

(** ** The sort *)

Lemma orderBy_completed_createdAt_spec a b :
  orderBy_completed_createdAt a b = true <-> listPrecedes a b.
Proof.
  unfold orderBy_completed_createdAt, listPrecedes.
  destruct (completed a), (completed b); rewrite ?Z.leb_le;
    intuition (try congruence; try lia).
Qed.

Lemma listPrecedes_total a b : listPrecedes a b \/ listPrecedes b a.
Proof.
  unfold listPrecedes.
  destruct (completed a), (completed b);
    destruct (Z.le_ge_cases (createdAt a) (createdAt b));
    intuition (try congruence; try lia).
Qed.

Lemma listPrecedes_trans a b c :
  listPrecedes a b -> listPrecedes b c -> listPrecedes a c.
Proof.
  unfold listPrecedes.
  destruct (completed a), (completed b), (completed c);
    intuition (try congruence; try lia).
Qed.

Lemma insertSorted_perm le t l : Permutation (insertSorted le t l) (t :: l).
Proof.
  induction l as [|u rest IH]; simpl.
  - apply Permutation_refl.
  - destruct (le t u).
    + apply Permutation_refl.
    + eapply perm_trans; [apply perm_skip, IH | apply perm_swap].
Qed.

Lemma orderBy_perm le l : Permutation (orderBy le l) l.
Proof.
  induction l as [|t rest IH]; simpl.
  - constructor.
  - eapply perm_trans; [apply insertSorted_perm | apply perm_skip, IH].
Qed.

Lemma insertSorted_sorted t l :
  StronglySorted listPrecedes l ->
  StronglySorted listPrecedes (insertSorted orderBy_completed_createdAt t l).
Proof.
  induction 1 as [|u rest Hs IH Hall]; simpl.
  - repeat constructor.
  - destruct (orderBy_completed_createdAt t u) eqn:E.
    + apply orderBy_completed_createdAt_spec in E.
      constructor; [constructor; assumption|].
      constructor; [assumption|].
      eapply Forall_impl; [|exact Hall].
      intros v Hv. eapply listPrecedes_trans; eassumption.
    + assert (Hut : listPrecedes u t).
      { destruct (listPrecedes_total t u) as [H|H]; [|exact H].
        apply orderBy_completed_createdAt_spec in H. congruence. }
      constructor; [exact IH|].
      eapply Permutation_Forall;
        [apply Permutation_sym, insertSorted_perm|].
      constructor; assumption.
Qed.

Lemma orderBy_sorted l :
  StronglySorted listPrecedes (orderBy orderBy_completed_createdAt l).
Proof.
  induction l as [|t rest IH]; simpl.
  - constructor.
  - apply insertSorted_sorted, IH.
Qed.

(** Two sorted arrangements of the same rows agree when no two distinct
    rows tie. *)
Lemma sorted_arrangement_unique (l1 l2 : list Task) :
  StronglySorted listPrecedes l1 ->
  StronglySorted listPrecedes l2 ->
  Permutation l1 l2 ->
  (forall a b, In a l2 -> In b l2 -> listPrecedes a b -> listPrecedes b a -> a = b) ->
  l1 = l2.
Proof.
  intros H1; revert l2.
  induction H1 as [|a l1 Hs1 IH Ha]; intros l2 H2 HP Hanti.
  - apply Permutation_nil in HP. congruence.
  - destruct l2 as [|b l2].
    { apply Permutation_sym, Permutation_nil in HP. discriminate. }
    inversion H2 as [|b' l2' Hs2 Hb]; subst.
    assert (a = b) as ->.
    { assert (Ina : In a (b :: l2))
        by (eapply Permutation_in; [exact HP | left; reflexivity]).
      assert (Inb : In b (a :: l1))
        by (eapply Permutation_in;
            [apply Permutation_sym; exact HP | left; reflexivity]).
      destruct Ina as [->|Ina]; [reflexivity|].
      destruct Inb as [->|Inb]; [reflexivity|].
      apply Hanti; [right; exact Ina | left; reflexivity | |].
      - rewrite Forall_forall in Ha. apply Ha, Inb.
      - rewrite Forall_forall in Hb. apply Hb, Ina. }
    f_equal. apply IH.
    + exact Hs2.
    + eapply Permutation_cons_inv; exact HP.
    + intros x y Hx Hy. apply Hanti; right; assumption.
Qed.

(** C2. [list()] ([getAllTasks]) never fails, leaves the table alone and
    returns the rows of the table, each once, arranged so that every
    pending task stands before every completed one and, within a group,
    a task created later stands first.  When the table holds a pending
    task A, a completed task B created after A, and a pending task C
    created after B, in whatever table order, the answer is [C; A; B]. *)
Theorem getAllTasks_two_key_order (db : DB) :
  exists l,
    getAllTasks db = Returned l db /\
    Permutation l (rows db) /\
    StronglySorted listPrecedes l /\
    (forall A B C,
        completed A = false -> completed B = true -> completed C = false ->
        createdAt A < createdAt B -> createdAt B < createdAt C ->
        Permutation (rows db) [A; B; C] ->
        l = [C; A; B]).
Proof.
  exists (orderBy orderBy_completed_createdAt (rows db)).
  split; [reflexivity|].
  split; [apply orderBy_perm|].
  split; [apply orderBy_sorted|].
  intros A B C HA HB HC Hab Hbc HP.
  apply sorted_arrangement_unique.
  - apply orderBy_sorted.
  - unfold listPrecedes.
    repeat constructor; intros; try congruence; try lia.
  - eapply perm_trans; [apply orderBy_perm|].
    eapply perm_trans; [exact HP|].
    eapply perm_trans; [apply perm_skip, perm_swap | apply perm_swap].
  - unfold listPrecedes. simpl.
    intros a b Ia Ib [Hab1 Hab2] [Hba1 Hba2].
    repeat match goal with
           | H : _ \/ _ |- _ => destruct H
           | H : False |- _ => destruct H
           end; subst; try reflexivity; exfalso;
      try (rewrite HA, HB in *; intuition congruence);
      try (rewrite HC, HB in *; intuition congruence);
      try (rewrite HA, HC in *; specialize (Hab2 eq_refl);
           specialize (Hba2 eq_refl); lia).
Qed.

(** ** The storage layer *)


Lemma filter_none {A} (p : A -> bool) (l : list A) :
  (forall x, In x l -> p x = false) -> filter p l = [].
Proof.
  induction l as [|a l IH]; simpl; intros H; [reflexivity|].
  rewrite (H a (or_introl eq_refl)). apply IH.
  intros x Hx. apply H. right. exact Hx.
Qed.

Lemma filter_all {A} (p : A -> bool) (l : list A) :
  (forall x, In x l -> p x = true) -> filter p l = l.
Proof.
  induction l as [|a l IH]; simpl; intros H; [reflexivity|].
  rewrite (H a (or_introl eq_refl)). f_equal. apply IH.
  intros x Hx. apply H. right. exact Hx.
Qed.

Lemma length_pos_iff {A} (l : list A) :
  (0 <? Z.of_nat (List.length l)) = true <-> exists x, In x l.
Proof.
  destruct l as [|a l]; simpl.
  - split; [discriminate | intros [x []]].
  - split; [intros _; exists a; left; reflexivity | intros _].
    apply Z.ltb_lt. lia.
Qed.

Lemma idParameterTaken_range z l :
  inInt4 z = true -> idParameterTaken (Num z) l = true.
Proof. intros H. unfold idParameterTaken. rewrite H. reflexivity. Qed.

Lemma idParameterTaken_stored z l t :
  In t l -> id t = z -> idParameterTaken (Num z) l = true.
Proof.
  intros Hin Hid. unfold idParameterTaken. apply orb_true_iff. right.
  apply existsb_exists. exists t. split; [exact Hin|].
  simpl. apply Z.eqb_eq, Hid.
Qed.

Lemma idParameterTaken_subset n l l' :
  n <> NaN -> (forall t, In t l' -> In t l) ->
  idParameterTaken n l' = true -> idParameterTaken n l = true.
Proof.
  intros _ Hsub. unfold idParameterTaken.
  destruct n as [|z|neg]; try discriminate.
  rewrite !orb_true_iff, !existsb_exists.
  intros [H|[t [Hin Ht]]]; [left; exact H | right; exists t; auto].
Qed.

Lemma idParameterTaken_missing z l :
  inInt4 z = false -> (forall t, In t l -> id t <> z) ->
  idParameterTaken (Num z) l = false.
Proof.
  intros Hr Hm. unfold idParameterTaken. rewrite Hr. cbn [orb].
  destruct (existsb (idEq (Num z)) l) eqn:E; [|reflexivity].
  apply existsb_exists in E. destruct E as [t [Hin Ht]].
  simpl in Ht. apply Z.eqb_eq in Ht. destruct (Hm t Hin Ht).
Qed.

(** On a table whose ids were issued by a sequence that is still within
    the range of the column, the engine takes exactly the 32-bit
    integers. *)
Lemma idParameterTaken_issued z db :
  idsIssued db -> nextId db <= 2147483648 ->
  idParameterTaken (Num z) (rows db) = inInt4 z.
Proof.
  intros Hiss Hseq. destruct (inInt4 z) eqn:Hr.
  - apply idParameterTaken_range, Hr.
  - apply idParameterTaken_missing; [exact Hr|].
    intros t Hin Hid. unfold idsIssued in Hiss.
    rewrite Forall_forall in Hiss. specialize (Hiss t Hin).
    unfold inInt4 in Hr. apply andb_false_iff in Hr.
    destruct Hr as [Hr|Hr]; apply Z.leb_gt in Hr; lia.
Qed.

(** [deleteTask] once the engine takes the id. *)
Lemma deleteTask_taken z db :
  idParameterTaken (Num z) (rows db) = true ->
  deleteTask (Num z) db =
  Returned (0 <? Z.of_nat (List.length (filter (fun t => id t =? z) (rows db))))
           (mkDB (filter (fun t => negb (id t =? z)) (rows db)) (nextId db)).
Proof. intros H. unfold deleteTask. rewrite H. reflexivity. Qed.


(** C8. DELETE /api/tasks/:id: an id that [parseInt] reads as NaN is
    answered 400 and the store is as before; an id for which the store's
    delete returns false is answered 404; a removal is answered 204 with
    no body. *)
Theorem delete_route_statuses (paramsId : string) (db : DB) :
  (isNaN (parseInt paramsId) = true ->
   delete_api_tasks_id paramsId db =
   Returned (mkResponse 400 (MessageJson "Invalid task ID" false)) db) /\
  (isNaN (parseInt paramsId) = false ->
   forall db', deleteTask (parseInt paramsId) db = Returned false db' ->
   delete_api_tasks_id paramsId db =
   Returned (mkResponse 404 (MessageJson "Task not found" false)) db') /\
  (isNaN (parseInt paramsId) = false ->
   forall db', deleteTask (parseInt paramsId) db = Returned true db' ->
   delete_api_tasks_id paramsId db = Returned (mkResponse 204 NoBody) db').
Proof.
  unfold delete_api_tasks_id, tryCatch, bind, ret.
  repeat split; intros HN; rewrite HN; try reflexivity;
    intros db' Hd; rewrite Hd; reflexivity.
Qed.

Section StorageFacts.

Variable bindBoolean : jsval -> option bool.

Lemma updateRows_miss n c ca l :
  (forall t, In t l -> idEq n t = false) ->
  updateRows n c ca l = Some (l, []).
Proof.
  induction l as [|t rest IH]; simpl; intros H; [reflexivity|].
  rewrite IH by (intros u Hu; apply H; right; exact Hu).
  rewrite (H t (or_introl eq_refl)). reflexivity.
Qed.

Lemma updateRows_set n b ca l :
  updateRows n (Some (Some b)) (Some ca) l =
  Some (map (fun t => if idEq n t then withCompletion b ca t else t) l,
        map (withCompletion b ca) (filter (idEq n) l)).
Proof.
  induction l as [|t rest IH]; simpl; [reflexivity|].
  rewrite IH. destruct (idEq n t); reflexivity.
Qed.

Lemma patchUpdates_defined now v :
  v <> JUndefined ->
  patchUpdates now v =
  mkUpdates (Some v) (Some (if truthy v then Some now else None)).
Proof.
  intros Hv. unfold patchUpdates.
  destruct v; try reflexivity. congruence.
Qed.

Lemma updateTask_refused n updates db :
  idParameterTaken n (rows db) = false ->
  updateTask bindBoolean n updates db = Threw StoreError db.
Proof.
  intros H. unfold updateTask. rewrite H.
  destruct (definedValue (upd_completed updates)) as [v|];
    destruct (upd_completedAt updates) as [ca|]; try reflexivity;
    destruct (columnOfCompleted bindBoolean v); reflexivity.
Qed.

Lemma updateTask_set n now v b db :
  v <> JUndefined ->
  columnOfCompleted bindBoolean v = Some (Some b) ->
  idParameterTaken n (rows db) = true ->
  updateTask bindBoolean n (patchUpdates now v) db =
  let ca := if truthy v then Some now else None in
  Returned
    (hd_error (map (withCompletion b ca) (filter (idEq n) (rows db))))
    (mkDB (map (fun t => if idEq n t then withCompletion b ca t else t)
               (rows db))
          (nextId db)).
Proof.
  intros Hv Hc Ht. rewrite patchUpdates_defined by exact Hv.
  unfold updateTask; cbn [upd_completed upd_completedAt].
  replace (definedValue (Some v)) with (Some v)
    by (destruct v; try reflexivity; congruence).
  rewrite Hc, Ht; cbn [option_map]. rewrite updateRows_set. reflexivity.
Qed.

Lemma updateTask_miss n updates db o :
  (forall t, In t (rows db) -> idEq n t = false) ->
  updateTask bindBoolean n updates db = o ->
  o = Returned None db \/ o = Threw StoreError db.
Proof.
  intros Hmiss <-.
  destruct (idParameterTaken n (rows db)) eqn:Ht;
    [|right; apply updateTask_refused, Ht].
  unfold updateTask. rewrite Ht.
  destruct (definedValue (upd_completed updates)) as [v|];
    destruct (upd_completedAt updates) as [ca|]; auto;
    try (destruct (columnOfCompleted bindBoolean v) as [col|]; simpl; auto);
    rewrite updateRows_miss by exact Hmiss; simpl;
    destruct db; auto.
Qed.

Lemma hd_error_filter_find {A} (p : A -> bool) (l : list A) :
  hd_error (filter p l) = find p l.
Proof.
  induction l as [|a l IH]; simpl; [reflexivity|].
  destruct (p a); [reflexivity | exact IH].
Qed.

Lemma findTask_hit z db b ca :
  hd_error (map (withCompletion b ca) (filter (idEq (Num z)) (rows db))) =
  option_map (withCompletion b ca) (findTask z db).
Proof.
  unfold findTask. rewrite <- hd_error_filter_find.
  change (idEq (Num z)) with (fun t : Task => id t =? z).
  destruct (filter (fun t : Task => id t =? z) (rows db)); reflexivity.
Qed.

End StorageFacts.

(** ** The PATCH route *)

Lemma find_map_same_id (f : Task -> Task) z l :
  (forall u, id (f u) = id u) ->
  find (fun u => id u =? z) (map f l) =
  option_map f (find (fun u => id u =? z) l).
Proof.
  intros Hf. induction l as [|a l IH]; simpl; [reflexivity|].
  rewrite Hf. destruct (id a =? z); [reflexivity | exact IH].
Qed.

Section PatchFacts.

Variable bindBoolean : jsval -> option bool.

(** The handler once the id is numeric and the body has been read. *)
Lemma patch_numeric now paramsId reqBody v db :
  isNaN (parseInt paramsId) = false ->
  readProperty reqBody "completed" = ret v ->
  patch_api_tasks_id bindBoolean now paramsId reqBody db =
  tryCatch
    (task <- updateTask bindBoolean (parseInt paramsId) (patchUpdates now v) ;;
     patchRespond task)
    patchFailed db.
Proof.
  intros HN Hv. unfold patch_api_tasks_id.
  unfold tryCatch at 1. rewrite HN.
  unfold bind at 1. rewrite Hv. reflexivity.
Qed.

(** A stored value for the column, on a row with that id: 200 and the
    row with both fields set. *)
Lemma patch_hit now paramsId reqBody v b z t db :
  parseInt paramsId = Num z ->
  readProperty reqBody "completed" = ret v ->
  v <> JUndefined ->
  columnOfCompleted bindBoolean v = Some (Some b) ->
  findTask z db = Some t ->
  let ca := if truthy v then Some now else None in
  let db' := mkDB (map (fun u => if id u =? z then withCompletion b ca u else u)
                       (rows db))
                  (nextId db) in
  patch_api_tasks_id bindBoolean now paramsId reqBody db =
  Returned (mkResponse 200 (TaskJson (withCompletion b ca t))) db' /\
  findTask z db' = Some (withCompletion b ca t).
Proof.
  intros Hn Hr Hv Hc Hf ca db'. split.
  - rewrite (patch_numeric now paramsId reqBody v) by (rewrite ?Hn; auto).
    unfold tryCatch, bind.
    assert (Htaken : idParameterTaken (parseInt paramsId) (rows db) = true).
    { rewrite Hn. pose proof (find_some _ _ Hf) as [Hin Hid].
      apply (idParameterTaken_stored z (rows db) t Hin).
      apply Z.eqb_eq, Hid. }
    rewrite (updateTask_set bindBoolean _ now v b) by assumption.
    cbv zeta. rewrite Hn, findTask_hit, Hf. reflexivity.
  - unfold findTask, db'; cbn [rows].
    rewrite find_map_same_id by (intros u; destruct (id u =? z); reflexivity).
    unfold findTask in Hf. rewrite Hf. cbn [option_map].
    apply find_some in Hf. destruct Hf as [_ Hz]. rewrite Hz. reflexivity.
Qed.

Lemma completionBody_read c :
  readProperty (completionBody c) "completed" = ret (JBool c).
Proof. reflexivity. Qed.


(** C5. [setCompletion(id, c)] on a row that exists answers 200 with
    that row, [completed] set to [c] and [completedAt] set from [c]
    alone (the instant of the request when [c] is true, null when it is
    false), whatever the row held before; the other columns are kept,
    and the row is what the table then holds under that id. *)
Theorem setCompletion_restamps now paramsId z c db t :
  parseInt paramsId = Num z ->
  findTask z db = Some t ->
  exists t' db',
    patch_api_tasks_id bindBoolean now paramsId (completionBody c) db =
    Returned (mkResponse 200 (TaskJson t')) db' /\
    findTask z db' = Some t' /\
    completed t' = c /\
    completedAt t' = (if c then Some now else None) /\
    id t' = id t /\ title t' = title t /\ createdAt t' = createdAt t /\
    (completed t = true -> c = true -> completedAt t' = Some now).
Proof.
  intros Hn Hf.
  destruct (patch_hit now paramsId (completionBody c) (JBool c) c z t db)
    as [Hp Hf']; try assumption; try reflexivity; try discriminate.
  eexists; eexists. split; [exact Hp|]. split; [exact Hf'|].
  simpl. repeat split. intros _ ->. reflexivity.
Qed.

Lemma updateRows_null_refused n ca l :
  (exists t, In t l /\ idEq n t = true) ->
  updateRows n (Some None) ca l = None.
Proof.
  induction l as [|u rest IH]; intros [t [Hin Hid]]; [destruct Hin|].
  cbn [updateRows].
  destruct (updateRows n (Some None) ca rest) as [[rest' hit]|]; [|reflexivity].
  destruct (idEq n u) eqn:E; [reflexivity|].
  destruct Hin as [->|Hin]; [congruence|].
  assert (Hnone : @None (list Task * list Task) = Some (rest', hit) -> False)
    by discriminate.
  exfalso. apply Hnone. symmetry.
  rewrite <- (IH (ex_intro _ t (conj Hin Hid))). reflexivity.
Qed.

(** C9 (amended).  PATCH with a numeric id never validates the body.
    Whatever [req.body.completed] is, the handler goes to the store with
    the object it built and never answers 400.  When the field is absent
    the object is empty (and the statement fails: 500, store unchanged).
    When the field has a value, that value itself is what is set, beside
    a [completedAt] computed from its truthiness.  Whenever the column
    takes the value, as it takes every boolean, the answer is 200 with
    the stored task carrying both, and the store afterwards holds that
    task under the id, every task of that id rewritten so and every
    other task as it was; null is refused by the NOT NULL column, and
    the request on a stored task then ends in 500 with the store
    unchanged. *)
Theorem patch_body_not_validated now paramsId reqBody v db :
  isNaN (parseInt paramsId) = false ->
  readProperty reqBody "completed" = ret v ->
  patch_api_tasks_id bindBoolean now paramsId reqBody db =
  tryCatch
    (task <- updateTask bindBoolean (parseInt paramsId) (patchUpdates now v) ;;
     patchRespond task)
    patchFailed db /\
  (v = JUndefined ->
   patchUpdates now v = noUpdates /\
   patch_api_tasks_id bindBoolean now paramsId reqBody db =
   Returned (mkResponse 500 (MessageJson "Failed to update task" false)) db) /\
  (v <> JUndefined ->
   patchUpdates now v =
   mkUpdates (Some v) (Some (if truthy v then Some now else None)) /\
   forall z t,
     parseInt paramsId = Num z ->
     findTask z db = Some t ->
     (forall b,
         columnOfCompleted bindBoolean v = Some (Some b) ->
         exists db',
           patch_api_tasks_id bindBoolean now paramsId reqBody db =
           Returned
             (mkResponse 200
                (TaskJson
                   (withCompletion b (if truthy v then Some now else None) t)))
             db' /\
           findTask z db' =
           Some (withCompletion b (if truthy v then Some now else None) t) /\
           rows db' =
           map (fun u => if id u =? z
                         then withCompletion b
                                (if truthy v then Some now else None) u
                         else u) (rows db) /\
           nextId db' = nextId db) /\
     (forall b,
         v = JBool b ->
         exists db',
           patch_api_tasks_id bindBoolean now paramsId reqBody db =
           Returned
             (mkResponse 200
                (TaskJson (withCompletion b (if b then Some now else None) t)))
             db' /\
           findTask z db' =
           Some (withCompletion b (if b then Some now else None) t) /\
           rows db' =
           map (fun u => if id u =? z
                         then withCompletion b (if b then Some now else None) u
                         else u) (rows db) /\
           nextId db' = nextId db) /\
     (v = JNull ->
      patch_api_tasks_id bindBoolean now paramsId reqBody db =
      Returned (mkResponse 500 (MessageJson "Failed to update task" false)) db)) /\
  (exists r db',
      patch_api_tasks_id bindBoolean now paramsId reqBody db = Returned r db' /\
      status r <> 400).
Proof.
  intros HN Hr.
  pose proof (patch_numeric now paramsId reqBody v db HN Hr) as Hp.
  split; [exact Hp|]. split; [|split].
  - intros ->. split; [reflexivity|]. rewrite Hp. reflexivity.
  - intros Hv. split; [apply patchUpdates_defined, Hv|].
    intros z t Hn Hf.
    assert (Hcol : forall b,
               columnOfCompleted bindBoolean v = Some (Some b) ->
               exists db',
                 patch_api_tasks_id bindBoolean now paramsId reqBody db =
                 Returned
                   (mkResponse 200
                      (TaskJson
                         (withCompletion b
                            (if truthy v then Some now else None) t)))
                   db' /\
                 findTask z db' =
                 Some (withCompletion b
                         (if truthy v then Some now else None) t) /\
                 rows db' =
                 map (fun u => if id u =? z
                               then withCompletion b
                                      (if truthy v then Some now else None) u
                               else u) (rows db) /\
                 nextId db' = nextId db).
    { intros b Hc.
      destruct (patch_hit now paramsId reqBody v b z t db) as [H Hfind];
        try assumption.
      eexists. split; [exact H|]. split; [exact Hfind|].
      split; reflexivity. }
    split; [exact Hcol|]. split.
    + intros b ->. apply (Hcol b). reflexivity.
    + intros ->. rewrite Hp. unfold tryCatch, bind, updateTask.
      cbn [patchUpdates notUndefined truthy upd_completed upd_completedAt
           definedValue columnOfCompleted option_map].
      pose proof (find_some _ _ Hf) as [Hin Hid].
      rewrite Hn.
      rewrite (idParameterTaken_stored z (rows db) t Hin)
        by (apply Z.eqb_eq, Hid).
      rewrite updateRows_null_refused; [reflexivity|].
      exists t. split; [exact Hin | exact Hid].
  - rewrite Hp. unfold tryCatch, bind, patchFailed, patchRespond, ret.
    destruct (updateTask bindBoolean (parseInt paramsId) (patchUpdates now v) db)
      as [[t|] db'|e db'];
      eexists; eexists; (split; [reflexivity|]); simpl; lia.
Qed.

End PatchFacts.

(** ** The POST route *)

Lemma post_title_string now x fields db :
  lookupField fields "title" = JStr x ->
  hasNul x = false ->
  let newTask := mkTask (nextId db) x false now None in
  post_api_tasks now (JObj fields) db =
  Returned (mkResponse 201 (TaskJson newTask))
           (mkDB (rows db ++ [newTask]) (nextId db + 1)).
Proof.
  intros H Hx.
  unfold post_api_tasks, tryCatch, bind, insertTaskSchema_parse, createTask.
  rewrite H. cbn [ret ins_title]. rewrite Hx. reflexivity.
Qed.

(** A title that the text column refuses: the insert throws, and the
    handler answers 500 with nothing stored. *)
Lemma post_title_refused now x fields db :
  lookupField fields "title" = JStr x ->
  hasNul x = true ->
  post_api_tasks now (JObj fields) db =
  Returned (mkResponse 500 (MessageJson "Failed to create task" false)) db.
Proof.
  intros H Hx.
  unfold post_api_tasks, tryCatch, bind, insertTaskSchema_parse, createTask.
  rewrite H. cbn [ret ins_title]. rewrite Hx. reflexivity.
Qed.

(** C3. The validation of POST /api/tasks accepts every string as a
    title: the empty title and a title of 101 letters are answered 201
    and stored, like a title of 100 letters. *)
Theorem post_accepts_empty_and_oversized_titles now db :
  let stored x := mkTask (nextId db) x false now None in
  let accepted x :=
    post_api_tasks now (createBody x) db =
    Returned (mkResponse 201 (TaskJson (stored x)))
             (mkDB (rows db ++ [stored x]) (nextId db + 1)) in
  accepted "" /\
  (String.length (repeatA 101) = 101%nat /\ accepted (repeatA 101)) /\
  (String.length (repeatA 100) = 100%nat /\ accepted (repeatA 100)).
Proof.
  cbv zeta.
  repeat split; try reflexivity; apply post_title_string; reflexivity.
Qed.

(** ** Runs of the server *)

Lemma stateOf_tryCatch {A} (body : Async A) handler db :
  (forall e d, stateOf (handler e d) = d) ->
  stateOf (tryCatch body handler db) = stateOf (body db).
Proof.
  intros H. unfold tryCatch. destruct (body db); simpl; [reflexivity | apply H].
Qed.

Lemma stateOf_bind {A B} (m : Async A) (k : A -> Async B) db :
  (forall a d, stateOf (k a d) = d) ->
  stateOf (bind m k db) = stateOf (m db).
Proof.
  intros H. unfold bind. destruct (m db); simpl; [apply H | reflexivity].
Qed.

Lemma futureOf_refl db : futureOf db db.
Proof.
  split; [lia|]. intros t Ht. left. exists t. auto.
Qed.

Lemma futureOf_trans a b c : futureOf a b -> futureOf b c -> futureOf a c.
Proof.
  intros [Hab Hb] [Hbc Hc]. split; [lia|].
  intros t Ht. destruct (Hc t Ht) as [[u [Hu Hid]]|Hr]; [|right; lia].
  destruct (Hb u Hu) as [[w [Hw Hid']]|Hr]; [|right; lia].
  left. exists w. split; [exact Hw | congruence].
Qed.

Lemma futureOf_same_ids db rs :
  map id rs = map id (rows db) -> futureOf db (mkDB rs (nextId db)).
Proof.
  intros H. split; [simpl; lia|]. simpl. intros t Ht. left.
  apply (in_map id) in Ht. rewrite H in Ht.
  apply in_map_iff in Ht. destruct Ht as [u [Hu Hin]]. exists u. auto.
Qed.

Lemma futureOf_subset db rs :
  (forall t, In t rs -> In t (rows db)) -> futureOf db (mkDB rs (nextId db)).
Proof.
  intros H. split; [simpl; lia|]. simpl. intros t Ht. left. exists t. auto.
Qed.

Lemma idsIssued_futureOf db db' :
  1 <= nextId db -> idsIssued db -> futureOf db db' -> idsIssued db'.
Proof.
  unfold idsIssued. rewrite !Forall_forall. intros H1 Hi [Hn Hr] t Ht.
  destruct (Hr t Ht) as [[u [Hu Hid]]|]; [|lia].
  specialize (Hi u Hu). lia.
Qed.

(** The store after POST: as before, or with one task more. *)
Lemma post_state now reqBody db :
  stateOf (post_api_tasks now reqBody db) = db \/
  exists x,
    stateOf (post_api_tasks now reqBody db) =
    mkDB (rows db ++ [mkTask (nextId db) x false now None]) (nextId db + 1).
Proof.
  unfold post_api_tasks.
  rewrite stateOf_tryCatch by (intros [] d; reflexivity).
  unfold insertTaskSchema_parse.
  destruct reqBody; try (left; reflexivity).
  destruct (lookupField fields "title") as [| | | |x| |];
    try (left; reflexivity).
  unfold bind, ret, createTask. cbn [ins_title].
  destruct (hasNul x); [left; reflexivity|].
  right. exists x. reflexivity.
Qed.

(** The store after DELETE: as before, or without the rows of that id. *)
Lemma delete_state paramsId db :
  stateOf (delete_api_tasks_id paramsId db) = db \/
  stateOf (delete_api_tasks_id paramsId db) =
  mkDB (filter (fun t => negb (idEq (parseInt paramsId) t)) (rows db))
       (nextId db).
Proof.
  unfold delete_api_tasks_id.
  rewrite stateOf_tryCatch by (intros e d; reflexivity).
  destruct (isNaN (parseInt paramsId)); [left; reflexivity|].
  rewrite stateOf_bind by (intros [|] d; reflexivity).
  unfold deleteTask.
  destruct (idParameterTaken (parseInt paramsId) (rows db));
    [right | left]; reflexivity.
Qed.

Section RunFacts.

Variable bindBoolean : jsval -> option bool.

Lemma updateRows_ids n c ca l l' hit :
  updateRows n c ca l = Some (l', hit) -> map id l' = map id l.
Proof.
  revert l' hit. induction l as [|t rest IH]; simpl; intros l' hit H.
  - inversion H. reflexivity.
  - destruct (updateRows n c ca rest) as [[rest' hit']|]; [|discriminate].
    specialize (IH _ _ eq_refl).
    destruct (idEq n t).
    + unfold setRow in H. destruct c as [[b|]|]; inversion H; subst;
        simpl; f_equal; exact IH.
    + inversion H; subst. simpl. f_equal. exact IH.
Qed.

Lemma updateTask_futureOf n updates db :
  futureOf db (stateOf (updateTask bindBoolean n updates db)).
Proof.
  destruct (idParameterTaken n (rows db)) eqn:Ht;
    [|rewrite (updateTask_refused bindBoolean _ _ _ Ht); apply futureOf_refl].
  unfold updateTask. rewrite Ht.
  destruct (definedValue (upd_completed updates)) as [v|];
    destruct (upd_completedAt updates) as [ca|];
    try apply futureOf_refl;
    try (destruct (columnOfCompleted bindBoolean v) as [col|];
         cbn [option_map]; [|apply futureOf_refl]);
    match goal with
    | |- context [updateRows ?n ?c ?a ?l] =>
        destruct (updateRows n c a l) as [[rs hit]|] eqn:E
    end; try apply futureOf_refl;
    apply futureOf_same_ids; eapply updateRows_ids; exact E.
Qed.

Lemma step_futureOf db ev : futureOf db (step bindBoolean db ev).
Proof.
  destruct ev as [now r]. unfold step; cbn [fst snd].
  destruct r as [|reqBody|paramsId reqBody|paramsId]; cbn [handle].
  - apply futureOf_refl.
  - destruct (post_state now reqBody db) as [->|[x ->]];
      [apply futureOf_refl|].
    split; cbn; [lia|]. intros t Ht.
    apply in_app_or in Ht. destruct Ht as [Ht|[<-|[]]].
    + left. exists t. auto.
    + right. cbn. lia.
  - unfold patch_api_tasks_id.
    rewrite stateOf_tryCatch by (intros e d; reflexivity).
    destruct (isNaN (parseInt paramsId)); [apply futureOf_refl|].
    destruct reqBody; try apply futureOf_refl;
      (unfold readProperty, bind at 1, ret;
       rewrite stateOf_bind by (intros [t|] d; reflexivity);
       apply updateTask_futureOf).
  - destruct (delete_state paramsId db) as [->| ->];
      [apply futureOf_refl|].
    apply futureOf_subset. intros t Ht. apply filter_In in Ht. apply Ht.
Qed.

Lemma steps_futureOf trace db :
  futureOf db (fold_left (step bindBoolean) trace db).
Proof.
  revert db. induction trace as [|ev trace IH]; intros db; simpl.
  - apply futureOf_refl.
  - eapply futureOf_trans; [apply step_futureOf | apply IH].
Qed.

Lemma step_nextId_pos db ev :
  1 <= nextId db -> 1 <= nextId (step bindBoolean db ev).
Proof.
  intros H. destruct (step_futureOf db ev) as [Hn _]. lia.
Qed.

Lemma run_idsIssued trace :
  1 <= nextId (run bindBoolean trace) /\ idsIssued (run bindBoolean trace).
Proof.
  unfold run.
  assert (H0 : 1 <= nextId emptyDB /\ idsIssued emptyDB)
    by (split; [simpl; lia | constructor]).
  destruct H0 as [H1 H2].
  pose proof (steps_futureOf trace emptyDB) as HF.
  split.
  - destruct HF as [Hn _]. lia.
  - eapply idsIssued_futureOf; eassumption.
Qed.

End RunFacts.




(** ** The lifecycle invariant *)

Lemma lifecycleInvariant_step bindBoolean db now c :
  lifecycleInvariant db ->
  lifecycleInvariant (step bindBoolean db (now, requestOf c)).
Proof.
  intros Hinv. unfold step; cbn [fst snd].
  destruct c as [x|paramsId c|paramsId|]; cbn [requestOf handle].
  - destruct (post_state now (createBody x) db) as [->|[y ->]];
      [exact Hinv|].
    intros t Ht. cbn [rows] in Ht. apply in_app_or in Ht.
    destruct Ht as [Ht|[<-|[]]]; [apply Hinv, Ht|].
    unfold stampedIffCompleted; simpl. split; [discriminate | congruence].
  - destruct (isNaN (parseInt paramsId)) eqn:HN.
    + unfold patch_api_tasks_id, tryCatch. rewrite HN. exact Hinv.
    + rewrite (patch_numeric bindBoolean now paramsId _ (JBool c))
        by (auto using completionBody_read).
      rewrite stateOf_tryCatch by (intros e d; reflexivity).
      rewrite stateOf_bind by (intros [t|] d; reflexivity).
      destruct (idParameterTaken (parseInt paramsId) (rows db)) eqn:Htaken;
        [|rewrite (updateTask_refused bindBoolean _ _ _ Htaken); exact Hinv].
      rewrite (updateTask_set bindBoolean _ now (JBool c) c)
        by (try discriminate; try reflexivity; exact Htaken).
      cbv zeta. cbn [stateOf]. intros t Ht. cbn [rows] in Ht.
      apply in_map_iff in Ht. destruct Ht as [u [<- Hu]].
      destruct (idEq (parseInt paramsId) u); [|apply Hinv, Hu].
      unfold stampedIffCompleted; simpl.
      destruct c; simpl; split; congruence.
  - destruct (delete_state paramsId db) as [->| ->]; [exact Hinv|].
    intros t Ht. cbn [rows] in Ht. apply filter_In in Ht. apply Hinv, Ht.
  - exact Hinv.
Qed.

Lemma lifecycleInvariant_steps bindBoolean cs db :
  lifecycleInvariant db ->
  lifecycleInvariant (fold_left (step bindBoolean) (requestsOf cs) db).
Proof.
  revert db. induction cs as [|[now c] cs IH]; intros db H; simpl.
  - exact H.
  - apply IH. apply lifecycleInvariant_step. exact H.
Qed.

(** C1. Through any sequence of [create], [setCompletion], [delete] and
    [list] operations from the empty store, every stored task has
    [completed] true exactly when [completedAt] is present.  A task
    created with a title that the text column can hold is stored with
    [completed] false and no [completedAt]; a
    [setCompletion(id, c)] on a stored task leaves it with [completed]
    equal to [c] and with [completedAt] the instant of the request when
    [c] is true and null when [c] is false. *)
Theorem completedAt_iff_completed bindBoolean :
  (forall cs t,
      In t (rows (run bindBoolean (requestsOf cs))) ->
      (completed t = true <-> completedAt t <> None)) /\
  (forall now x db,
      hasNul x = false ->
      exists t db',
        post_api_tasks now (createBody x) db =
        Returned (mkResponse 201 (TaskJson t)) db' /\
        In t (rows db') /\ completed t = false /\ completedAt t = None) /\
  (forall now paramsId z c db t,
      parseInt paramsId = Num z ->
      findTask z db = Some t ->
      exists t' db',
        patch_api_tasks_id bindBoolean now paramsId (completionBody c) db =
        Returned (mkResponse 200 (TaskJson t')) db' /\
        findTask z db' = Some t' /\
        completed t' = c /\
        (c = true -> completedAt t' = Some now) /\
        (c = false -> completedAt t' = None)).
Proof.
  split; [|split].
  - intros cs t Ht.
    apply (lifecycleInvariant_steps bindBoolean cs emptyDB); [|exact Ht].
    intros u [].
  - intros now x db Hx. eexists; eexists.
    split; [apply post_title_string; [reflexivity | exact Hx]|].
    cbn [rows completed completedAt]. split; [|split; reflexivity].
    apply in_or_app. right. left. reflexivity.
  - intros now paramsId z c db t Hn Hf.
    destruct (patch_hit bindBoolean now paramsId (completionBody c)
                (JBool c) c z t db) as [Hp Hf'];
      try assumption; try reflexivity; try discriminate.
    eexists; eexists. split; [exact Hp|]. split; [exact Hf'|].
    simpl. split; [reflexivity|]. split; intros ->; reflexivity.
Qed.

(** ** Path ids *)

Lemma decimalDigit_facts c :
  isDecimalDigit c = true ->
  isWhiteSpace c = false /\
  radixDigit 10 c = Some (Z.of_nat (nat_of_ascii c) - 48) /\
  c <> "-"%char /\ c <> "+"%char.
Proof.
  destruct c as [[] [] [] [] [] [] [] []]; intros H;
    try discriminate H; repeat split; discriminate.
Qed.

Lemma nonDecimalDigit_stops c :
  isDecimalDigit c = false -> radixDigit 10 c = None.
Proof.
  destruct c as [[] [] [] [] [] [] [] []]; intros H;
    try discriminate H; reflexivity.
Qed.

Lemma takeDigits_decimal_prefix ds tail :
  allDecimalDigits ds = true ->
  match tail with
  | EmptyString => True
  | String c _ => isDecimalDigit c = false
  end ->
  takeDigits 10 (ds ++ tail) = decimalDigits ds.
Proof.
  intros Hd Ht. induction ds as [|c ds IH]; cbn [append takeDigits decimalDigits].
  - destruct tail as [|c rest]; [reflexivity|].
    cbn [takeDigits]. rewrite (nonDecimalDigit_stops c Ht). reflexivity.
  - cbn [allDecimalDigits] in Hd. apply andb_true_iff in Hd.
    destruct Hd as [Hc Hd].
    destruct (decimalDigit_facts c Hc) as [_ [-> _]].
    f_equal. apply IH, Hd.
Qed.

Lemma mathInt_decimalDigits ds :
  mathInt 10 (decimalDigits ds) = decimalValue ds.
Proof.
  unfold mathInt, decimalValue. generalize 0.
  induction ds as [|c ds IH]; intros acc; cbn [decimalDigits fold_left decimalValueFrom].
  - reflexivity.
  - apply IH.
Qed.

Lemma toDouble_exact n : n < 2 ^ 53 -> toDouble n = Some n.
Proof.
  intros H. unfold toDouble.
  destruct (n <? 2 ^ 53) eqn:E; [reflexivity|].
  apply Z.ltb_ge in E. lia.
Qed.

Lemma parseInt_digit_start c rest :
  isDecimalDigit c = true ->
  hasHexPrefix (String c rest) = false ->
  parseInt (String c rest) =
  match takeDigits 10 (String c rest) with
  | [] => NaN
  | ds => match toDouble (mathInt 10 ds) with
          | Some m => Num m
          | None => Infinity false
          end
  end.
Proof.
  intros Hc Hx. destruct (decimalDigit_facts c Hc) as [Hw [_ [Hm Hp]]].
  unfold parseInt. cbn [trimStart]. rewrite Hw.
  assert (Hs : match String c rest with
               | String "-" r => r
               | String "+" r => r
               | _ => String c rest
               end = String c rest).
  { destruct c as [[] [] [] [] [] [] [] []]; try reflexivity; congruence. }
  assert (Hn : match String c rest with
               | String "-" _ => true
               | _ => false
               end = false).
  { destruct c as [[] [] [] [] [] [] [] []]; try reflexivity; congruence. }
  cbv zeta. rewrite Hs, Hn, Hx. reflexivity.
Qed.

Lemma parseInt_decimal_prefix ds tail :
  ds <> "" ->
  allDecimalDigits ds = true ->
  match tail with
  | EmptyString => True
  | String c _ => isDecimalDigit c = false
  end ->
  hasHexPrefix (ds ++ tail) = false ->
  decimalValue ds < 2 ^ 53 ->
  parseInt (ds ++ tail) = Num (decimalValue ds).
Proof.
  intros Hne Hd Ht Hx Hv.
  destruct ds as [|c ds]; [congruence|].
  pose proof Hd as Hd'. cbn [allDecimalDigits] in Hd'.
  apply andb_true_iff in Hd'. destruct Hd' as [Hc _].
  change (String c ds ++ tail) with (String c (ds ++ tail)) in *.
  rewrite parseInt_digit_start by assumption.
  change (String c (ds ++ tail)) with (String c ds ++ tail).
  rewrite takeDigits_decimal_prefix by assumption.
  pose proof (mathInt_decimalDigits (String c ds)) as Hm.
  destruct (decimalDigits (String c ds)) eqn:E; [discriminate E|].
  rewrite Hm, toDouble_exact by assumption. reflexivity.
Qed.

Lemma hasHexPrefix_digits ds : allDecimalDigits ds = true -> hasHexPrefix ds = false.
Proof.
  intros H.
  destruct ds as [|c [|d ds]];
    [reflexivity | destruct c as [[] [] [] [] [] [] [] []]; reflexivity |].
  cbn [allDecimalDigits] in H.
  apply andb_true_iff in H. destruct H as [_ H].
  apply andb_true_iff in H. destruct H as [H _].
  unfold hasHexPrefix.
  destruct d as [[] [] [] [] [] [] [] []]; try discriminate H;
    destruct c as [[] [] [] [] [] [] [] []]; reflexivity.
Qed.

Lemma append_empty_r s : s ++ "" = s.
Proof.
  induction s as [|c s IH]; cbn [append]; [reflexivity | rewrite IH; reflexivity].
Qed.

Lemma patch_depends_on_parsed_id bindBoolean now a b reqBody db :
  parseInt a = parseInt b ->
  patch_api_tasks_id bindBoolean now a reqBody db =
  patch_api_tasks_id bindBoolean now b reqBody db.
Proof.
  intros H. unfold patch_api_tasks_id, tryCatch. rewrite H. reflexivity.
Qed.

Lemma delete_depends_on_parsed_id a b db :
  parseInt a = parseInt b ->
  delete_api_tasks_id a db = delete_api_tasks_id b db.
Proof.
  intros H. unfold delete_api_tasks_id, tryCatch. rewrite H. reflexivity.
Qed.

Lemma isNaN_spec n : isNaN n = true <-> n = NaN.
Proof. destruct n; simpl; split; congruence. Qed.

Ltac status_vs_NaN HN :=
  cbn [status]; split; intros ?H;
  [ first [ apply isNaN_spec; exact HN | exfalso; lia ]
  | first [ reflexivity
          | match goal with
            | H : _ = NaN |- _ => apply isNaN_spec in H; congruence
            end ] ].

Lemma patch_400_iff_NaN bindBoolean now paramsId reqBody db :
  exists r db',
    patch_api_tasks_id bindBoolean now paramsId reqBody db = Returned r db' /\
    (status r = 400 <-> parseInt paramsId = NaN).
Proof.
  unfold patch_api_tasks_id, tryCatch.
  destruct (isNaN (parseInt paramsId)) eqn:HN.
  - eexists; eexists. split; [reflexivity|]. status_vs_NaN HN.
  - unfold patchFailed, patchRespond, ret.
    destruct (bind _ _ db) as [r db'|e db'] eqn:E.
    + exists r, db'. split; [reflexivity|].
      unfold bind in E.
      destruct (readProperty reqBody "completed" db) as [v d|e d];
        [|discriminate E].
      destruct (updateTask bindBoolean (parseInt paramsId)
                  (patchUpdates now v) d) as [[t|] d'|e d'];
        inversion E; subst; status_vs_NaN HN.
    + eexists; eexists. split; [reflexivity|]. status_vs_NaN HN.
Qed.

Lemma delete_400_iff_NaN paramsId db :
  exists r db',
    delete_api_tasks_id paramsId db = Returned r db' /\
    (status r = 400 <-> parseInt paramsId = NaN).
Proof.
  unfold delete_api_tasks_id, tryCatch.
  destruct (isNaN (parseInt paramsId)) eqn:HN.
  - eexists; eexists. split; [reflexivity|]. status_vs_NaN HN.
  - unfold bind, deleteTask, ret.
    destruct (idParameterTaken (parseInt paramsId) (rows db));
      [destruct (negb _)|];
      eexists; eexists; (split; [reflexivity|]); status_vs_NaN HN.
Qed.

(** C10 (amended).  PATCH and DELETE answer 400 exactly when [parseInt]
    reads the path id as NaN.  A path id made of decimal digits followed
    by a character that is not a decimal digit, which does not begin with
    0x or 0X and whose digits read a number below 2^53, is read as that
    number, and the request is served exactly as the request whose path
    id is the digits alone. *)
Theorem path_id_decimal_prefix bindBoolean now reqBody db :
  (forall paramsId,
      (exists r db',
          patch_api_tasks_id bindBoolean now paramsId reqBody db =
          Returned r db' /\
          (status r = 400 <-> parseInt paramsId = NaN)) /\
      (exists r db',
          delete_api_tasks_id paramsId db = Returned r db' /\
          (status r = 400 <-> parseInt paramsId = NaN))) /\
  (forall ds c rest,
      ds <> "" ->
      allDecimalDigits ds = true ->
      isDecimalDigit c = false ->
      hasHexPrefix (ds ++ String c rest) = false ->
      decimalValue ds < 2 ^ 53 ->
      parseInt (ds ++ String c rest) = Num (decimalValue ds) /\
      patch_api_tasks_id bindBoolean now (ds ++ String c rest) reqBody db =
      patch_api_tasks_id bindBoolean now ds reqBody db /\
      delete_api_tasks_id (ds ++ String c rest) db =
      delete_api_tasks_id ds db).
Proof.
  split.
  - intros paramsId. split;
      [apply patch_400_iff_NaN | apply delete_400_iff_NaN].
  - intros ds c rest Hne Hd Hc Hx Hv.
    assert (H1 : parseInt (ds ++ String c rest) = Num (decimalValue ds))
      by (apply parseInt_decimal_prefix; assumption).
    assert (H2 : parseInt ds = Num (decimalValue ds)).
    { rewrite <- (append_empty_r ds) at 1.
      apply parseInt_decimal_prefix; try assumption; try exact I.
      rewrite append_empty_r. apply hasHexPrefix_digits, Hd. }
    split; [exact H1|]. split.
    + apply patch_depends_on_parsed_id. congruence.
    + apply delete_depends_on_parsed_id. congruence.
Qed.

(** C10 as stated fails on ids with a hexadecimal prefix: "0x1" begins
    with the digit 0 followed by a non-digit, yet it is read as 1, so
    DELETE /api/tasks/0x1 removes task 1 where DELETE /api/tasks/0 finds
    nothing; and "0x" is read as NaN and answered 400. *)
Lemma hex_prefixed_id_counterexample :
  let db1 := mkDB [mkTask 1 "t" false 0 None] 2 in
  ("0x1" = "0" ++ String "x" "1" /\
   allDecimalDigits "0" = true /\ isDecimalDigit "x" = false /\
   decimalValue "0" = 0) /\
  parseInt "0x1" = Num 1 /\
  delete_api_tasks_id "0x1" db1 = Returned (mkResponse 204 NoBody) (mkDB [] 2) /\
  delete_api_tasks_id "0" db1 =
  Returned (mkResponse 404 (MessageJson "Task not found" false)) db1 /\
  ("0x" = "0" ++ String "x" "" /\ parseInt "0x" = NaN) /\
  delete_api_tasks_id "0x" db1 =
  Returned (mkResponse 400 (MessageJson "Invalid task ID" false)) db1.
Proof.
  cbv zeta. repeat split; vm_compute; reflexivity.
Qed.

(** C9 as stated fails on null, which is a defined value for the test
    [!== undefined]: on a stored task, PATCH with [{ completed: null }] is
    not applied; it is refused by the NOT NULL column, answered 500, and
    the task is as before.  (Null does not go through the driver's
    reading of non-boolean values.) *)
Lemma patch_null_completed_counterexample :
  let t := mkTask 1 "a" true 10 (Some 15) in
  let db := mkDB [t] 2 in
  let reqBody := JObj [("completed", JNull)] in
  readProperty reqBody "completed" = ret JNull /\
  notUndefined JNull = true /\
  patchUpdates 20 JNull = mkUpdates (Some JNull) (Some None) /\
  patch_api_tasks_id strictBoolean 20 "1" reqBody db =
  Returned (mkResponse 500 (MessageJson "Failed to update task" false)) db /\
  findTask 1 (stateOf (patch_api_tasks_id strictBoolean 20 "1" reqBody db)) =
  Some t.
Proof.
  cbv zeta. repeat split.
Qed.




(** ** The theorems at concrete stores *)

(** C1 at the run: create "a" at instant 10, complete task 1 at 20. *)
Lemma completedAt_iff_completed_witness :
  let cs := [(10, Create "a"); (20, SetCompletion "1" true)] in
  let t := mkTask 1 "a" true 10 (Some 20) in
  let db := mkDB [mkTask 1 "a" false 10 None] 2 in
  In t (rows (run strictBoolean (requestsOf cs))) /\
  (completed t = true <-> completedAt t <> None) /\
  hasNul "a" = false /\
  (exists u db',
      post_api_tasks 10 (createBody "a") emptyDB =
      Returned (mkResponse 201 (TaskJson u)) db' /\
      In u (rows db') /\ completed u = false /\ completedAt u = None) /\
  parseInt "1" = Num 1 /\
  findTask 1 db = Some (mkTask 1 "a" false 10 None) /\
  exists t' db',
    patch_api_tasks_id strictBoolean 20 "1" (completionBody true) db =
    Returned (mkResponse 200 (TaskJson t')) db' /\
    findTask 1 db' = Some t' /\
    completed t' = true /\
    (true = true -> completedAt t' = Some 20) /\
    (true = false -> completedAt t' = None).
Proof.
  cbv zeta.
  destruct (completedAt_iff_completed strictBoolean) as [H1 [H2 H3]].
  assert (Hin : In (mkTask 1 "a" true 10 (Some 20))
                   (rows (run strictBoolean
                            (requestsOf [(10, Create "a");
                                         (20, SetCompletion "1" true)]))))
    by (vm_compute; left; reflexivity).
  split; [exact Hin|].
  split; [exact (H1 _ _ Hin)|].
  split; [reflexivity|]. split; [exact (H2 10 "a" emptyDB eq_refl)|].
  split; [reflexivity|]. split; [reflexivity|].
  apply (H3 20 "1" 1 true (mkDB [mkTask 1 "a" false 10 None] 2)
           (mkTask 1 "a" false 10 None)); reflexivity.
Defined.

(** C2 at the table that holds A, B, C in the order of their creation. *)
Lemma getAllTasks_two_key_order_witness :
  let A := mkTask 1 "A" false 1 None in
  let B := mkTask 2 "B" true 2 (Some 5) in
  let C := mkTask 3 "C" false 3 None in
  let db := mkDB [A; B; C] 4 in
  (createdAt A < createdAt B /\ createdAt B < createdAt C) /\
  exists l, getAllTasks db = Returned l db /\ l = [C; A; B].
Proof.
  cbv zeta. split; [split; reflexivity|].
  destruct (getAllTasks_two_key_order
              (mkDB [mkTask 1 "A" false 1 None; mkTask 2 "B" true 2 (Some 5);
                     mkTask 3 "C" false 3 None] 4))
    as [l [H1 [_ [_ H4]]]].
  exists l. split; [exact H1|].
  apply H4; reflexivity.
Defined.



(** C5 at a task completed at instant 20 and completed again at 30. *)
Lemma setCompletion_restamps_witness :
  let t := mkTask 1 "a" true 10 (Some 20) in
  let db := mkDB [t] 2 in
  parseInt "1" = Num 1 /\ findTask 1 db = Some t /\
  exists t' db',
    patch_api_tasks_id strictBoolean 30 "1" (completionBody true) db =
    Returned (mkResponse 200 (TaskJson t')) db' /\
    findTask 1 db' = Some t' /\
    completed t' = true /\
    completedAt t' = Some 30 /\
    id t' = id t /\ title t' = title t /\ createdAt t' = createdAt t /\
    (completed t = true -> true = true -> completedAt t' = Some 30).
Proof.
  cbv zeta. split; [reflexivity|]. split; [reflexivity|].
  apply (setCompletion_restamps strictBoolean 30 "1" 1 true
           (mkDB [mkTask 1 "a" true 10 (Some 20)] 2)
           (mkTask 1 "a" true 10 (Some 20)));
    reflexivity.
Defined.


(** C8 at a non-numeric id, at a missing id and at a stored id. *)
Lemma delete_route_statuses_witness :
  let db := mkDB [mkTask 1 "a" false 10 None] 2 in
  (isNaN (parseInt "abc") = true /\
   delete_api_tasks_id "abc" db =
   Returned (mkResponse 400 (MessageJson "Invalid task ID" false)) db) /\
  (isNaN (parseInt "5") = false /\
   deleteTask (parseInt "5") db = Returned false db /\
   delete_api_tasks_id "5" db =
   Returned (mkResponse 404 (MessageJson "Task not found" false)) db) /\
  (isNaN (parseInt "1") = false /\
   deleteTask (parseInt "1") db = Returned true (mkDB [] 2) /\
   delete_api_tasks_id "1" db = Returned (mkResponse 204 NoBody) (mkDB [] 2)).
Proof.
  cbv zeta.
  pose (db := mkDB [mkTask 1 "a" false 10 None] 2).
  split; [|split].
  - split; [reflexivity|].
    apply (proj1 (delete_route_statuses "abc" db)). reflexivity.
  - split; [reflexivity|]. split; [reflexivity|].
    apply (proj1 (proj2 (delete_route_statuses "5" db))); reflexivity.
  - split; [reflexivity|]. split; [reflexivity|].
    apply (proj2 (proj2 (delete_route_statuses "1" db))); reflexivity.
Defined.

(** C9 at a body without the field and at a body whose field is a
    boolean. *)
Lemma patch_body_not_validated_witness :
  let t := mkTask 1 "a" false 10 None in
  let db := mkDB [t] 2 in
  (isNaN (parseInt "1") = false /\
   readProperty (JObj []) "completed" = ret JUndefined /\
   patchUpdates 20 JUndefined = noUpdates /\
   patch_api_tasks_id strictBoolean 20 "1" (JObj []) db =
   Returned (mkResponse 500 (MessageJson "Failed to update task" false)) db) /\
  (readProperty (completionBody true) "completed" = ret (JBool true) /\
   JBool true <> JUndefined /\
   patchUpdates 20 (JBool true) =
   mkUpdates (Some (JBool true)) (Some (Some 20)) /\
   parseInt "1" = Num 1 /\ findTask 1 db = Some t /\
   exists db',
     patch_api_tasks_id strictBoolean 20 "1" (completionBody true) db =
     Returned (mkResponse 200 (TaskJson (withCompletion true (Some 20) t))) db' /\
     findTask 1 db' = Some (withCompletion true (Some 20) t) /\
     rows db' = [mkTask 1 "a" true 10 (Some 20)] /\
     nextId db' = nextId db).
Proof.
  cbv zeta.
  pose (db := mkDB [mkTask 1 "a" false 10 None] 2).
  split.
  - destruct (patch_body_not_validated strictBoolean 20 "1" (JObj [])
                JUndefined db eq_refl eq_refl) as [_ [H _]].
    destruct (H eq_refl) as [Hu Hp].
    split; [reflexivity|]. split; [reflexivity|].
    split; [exact Hu | exact Hp].
  - destruct (patch_body_not_validated strictBoolean 20 "1"
                (completionBody true) (JBool true) db
                eq_refl eq_refl) as [_ [_ [H _]]].
    assert (Hd : JBool true <> JUndefined) by discriminate.
    destruct (H Hd) as [Hu Hrow].
    destruct (Hrow 1 (mkTask 1 "a" false 10 None) eq_refl eq_refl)
      as [_ [Hb _]].
    split; [reflexivity|]. split; [exact Hd|]. split; [exact Hu|].
    split; [reflexivity|]. split; [reflexivity|].
    destruct (Hb true eq_refl) as [db' [H1 [H2 [H3 H4]]]].
    exists db'. split; [exact H1|]. split; [exact H2|].
    split; [exact H3 | exact H4].
Defined.

(** C10 at the id "12abc". *)
Lemma path_id_decimal_prefix_witness :
  let db := mkDB [mkTask 12 "a" false 10 None] 13 in
  ("12" <> "" /\ allDecimalDigits "12" = true /\ isDecimalDigit "a" = false /\
   hasHexPrefix ("12" ++ String "a" "bc") = false /\
   decimalValue "12" < 2 ^ 53) /\
  parseInt ("12" ++ String "a" "bc") = Num (decimalValue "12") /\
  patch_api_tasks_id strictBoolean 20 ("12" ++ String "a" "bc")
    (completionBody true) db =
  patch_api_tasks_id strictBoolean 20 "12" (completionBody true) db /\
  delete_api_tasks_id ("12" ++ String "a" "bc") db = delete_api_tasks_id "12" db.
Proof.
  cbv zeta.
  assert (H : "12" <> "" /\ allDecimalDigits "12" = true /\
              isDecimalDigit "a" = false /\
              hasHexPrefix ("12" ++ String "a" "bc") = false /\
              decimalValue "12" < 2 ^ 53)
    by (repeat split; try reflexivity; discriminate).
  split; [exact H|].
  destruct H as [H1 [H2 [H3 [H4 H5]]]].
  apply (proj2 (path_id_decimal_prefix strictBoolean 20 (completionBody true)
                  (mkDB [mkTask 12 "a" false 10 None] 13)) "12" "a"%char "bc");
    assumption.
Defined.

(** * Further properties of the server *)

Section ServerFacts.

Variable bindBoolean : jsval -> option bool.

(** The store after PATCH is the store before, or the store after the
    one [updateTask] the handler calls. *)
Lemma patch_state now paramsId reqBody db :
  stateOf (patch_api_tasks_id bindBoolean now paramsId reqBody db) = db \/
  exists updates,
    stateOf (patch_api_tasks_id bindBoolean now paramsId reqBody db) =
    stateOf (updateTask bindBoolean (parseInt paramsId) updates db).
Proof.
  unfold patch_api_tasks_id.
  rewrite stateOf_tryCatch by (intros e d; reflexivity).
  destruct (isNaN (parseInt paramsId)); [left; reflexivity|].
  destruct reqBody; try (left; reflexivity);
    (right; unfold readProperty, bind at 1, ret;
     rewrite stateOf_bind by (intros [t|] d; reflexivity);
     eexists; reflexivity).
Qed.

(** Rows that an update leaves or rewrites keep their id, their title
    and their creation time, and a row it rewrites is a row it targets. *)
Lemma updateRows_keeps n c ca l l' hit :
  updateRows n c ca l = Some (l', hit) ->
  map (fun t => (id t, title t, createdAt t)) l' =
  map (fun t => (id t, title t, createdAt t)) l /\
  forall t', In t' l' -> In t' l \/ idEq n t' = true.
Proof.
  revert l' hit. induction l as [|t rest IH]; simpl; intros l' hit H.
  - inversion H. split; [reflexivity | intros t' []].
  - destruct (updateRows n c ca rest) as [[rest' hit']|]; [|discriminate].
    destruct (IH _ _ eq_refl) as [IHm IHi].
    destruct (idEq n t) eqn:E.
    + unfold setRow in H.
      destruct c as [[b|]|]; inversion H; subst; simpl;
        (split; [f_equal; exact IHm|]);
        (intros t' [<-|Hin];
         [right; destruct n; simpl in *; assumption
         | destruct (IHi t' Hin); auto]).
    + inversion H; subst. simpl. split; [f_equal; exact IHm|].
      intros t' [<-|Hin]; [auto | destruct (IHi t' Hin); auto].
Qed.

Lemma updateTask_keeps n updates db :
  let db' := stateOf (updateTask bindBoolean n updates db) in
  nextId db' = nextId db /\
  map (fun t => (id t, title t, createdAt t)) (rows db') =
  map (fun t => (id t, title t, createdAt t)) (rows db) /\
  forall t', In t' (rows db') -> In t' (rows db) \/ idEq n t' = true.
Proof.
  cbv zeta.
  destruct (idParameterTaken n (rows db)) eqn:Ht;
    [|rewrite (updateTask_refused bindBoolean _ _ _ Ht); cbn [stateOf]; auto].
  unfold updateTask. rewrite Ht.
  destruct (definedValue (upd_completed updates)) as [v|];
    destruct (upd_completedAt updates) as [ca|];
    try (cbn [stateOf]; auto);
    try (destruct (columnOfCompleted bindBoolean v) as [col|];
         cbn [option_map stateOf]; [|auto]);
    match goal with
    | |- context [updateRows ?n ?c ?a ?l] =>
        destruct (updateRows n c a l) as [[rs hit]|] eqn:E
    end; cbn [stateOf rows nextId]; auto;
    destruct (updateRows_keeps _ _ _ _ _ _ E) as [Hm Hi]; auto.
Qed.

(** PATCH, whatever the body and whatever the driver, neither adds nor
    removes a task and never changes an id, a title or a creation time:
    the sequence stands still, the tasks keep these three columns in
    their table order, and a task whose id the path does not name is
    left exactly as it was. *)
Theorem patch_keeps_identity_columns now paramsId reqBody db :
  let db' := stateOf (patch_api_tasks_id bindBoolean now paramsId reqBody db) in
  nextId db' = nextId db /\
  map (fun t => (id t, title t, createdAt t)) (rows db') =
  map (fun t => (id t, title t, createdAt t)) (rows db) /\
  forall t', In t' (rows db') ->
             In t' (rows db) \/ idEq (parseInt paramsId) t' = true.
Proof.
  cbv zeta.
  destruct (patch_state now paramsId reqBody db) as [->|[updates ->]].
  - auto.
  - apply updateTask_keeps.
Qed.

(** The ids of the table after a request: as before, or with the next
    value of the sequence at the end, or those of the rows a filter kept. *)
Lemma step_ids_shape db ev :
  let db' := step bindBoolean db ev in
  (map id (rows db') = map id (rows db) /\ nextId db' = nextId db) \/
  (map id (rows db') = (map id (rows db) ++ [nextId db])%list /\
   nextId db' = nextId db + 1) \/
  (exists p, rows db' = filter p (rows db) /\ nextId db' = nextId db).
Proof.
  destruct ev as [now r]. unfold step; cbn [fst snd].
  destruct r as [|reqBody|paramsId reqBody|paramsId]; cbn [handle]; cbv zeta.
  - left. split; reflexivity.
  - destruct (post_state now reqBody db) as [->|[x ->]];
      [left; split; reflexivity|].
    right. left. cbn. rewrite map_app. split; reflexivity.
  - left.
    destruct (patch_state now paramsId reqBody db) as [->|[updates ->]];
      [split; reflexivity|].
    destruct (updateTask_keeps (parseInt paramsId) updates db) as [Hn [Hm _]].
    split; [|exact Hn].
    apply (f_equal (map (fun k : Z * string * Z => fst (fst k)))) in Hm.
    rewrite !map_map in Hm. exact Hm.
  - destruct (delete_state paramsId db) as [->| ->];
      [left; split; reflexivity|].
    right. right. eexists. split; reflexivity.
Qed.

(** Rows kept by a filter still have distinct ids. *)
Lemma filter_keeps_ids_distinct (keep : Task -> bool) (rs : list Task)
  (Hdistinct : NoDup (map id rs)) :
  NoDup (map id (filter keep rs)).
Proof.
  induction rs as [|r rs IH]; cbn [filter map]; [constructor|].
  cbn [map] in Hdistinct. apply NoDup_cons_iff in Hdistinct.
  destruct Hdistinct as [Hfresh Hrest].
  destruct (keep r); [|exact (IH Hrest)].
  cbn [map]. apply NoDup_cons; [|exact (IH Hrest)].
  intros Hin. apply Hfresh.
  apply in_map_iff in Hin. destruct Hin as [u [Hu Hin]].
  apply filter_In in Hin. rewrite <- Hu. apply in_map, Hin.
Qed.

Lemma step_ids_distinct db ev :
  idsIssued db -> NoDup (map id (rows db)) ->
  NoDup (map id (rows (step bindBoolean db ev))).
Proof.
  intros Hi Hnd.
  destruct (step_ids_shape db ev) as [[H _]|[[H _]|[p [H _]]]].
  - rewrite H. exact Hnd.
  - rewrite H. apply NoDup_app; [exact Hnd | repeat constructor; auto |].
    intros x Hx [<-|[]].
    apply in_map_iff in Hx. destruct Hx as [u [Hu Hin]].
    unfold idsIssued in Hi. rewrite Forall_forall in Hi.
    specialize (Hi u Hin). lia.
  - rewrite H. apply filter_keeps_ids_distinct, Hnd.
Qed.

(** The primary key: in every store the server can reach, no two tasks
    share an id, and every id lies between 1 and the next value of the
    sequence. *)
Theorem reachable_ids_distinct trace :
  let db := run bindBoolean trace in
  NoDup (map id (rows db)) /\
  forall t, In t (rows db) -> 1 <= id t < nextId db.
Proof.
  cbv zeta. split.
  - unfold run.
    assert (H : forall db,
               1 <= nextId db -> idsIssued db -> NoDup (map id (rows db)) ->
               NoDup (map id (rows (fold_left (step bindBoolean) trace db)))).
    { induction trace as [|ev trace IH]; intros db H1 Hi Hnd; simpl.
      - exact Hnd.
      - apply IH.
        + apply step_nextId_pos, H1.
        + eapply idsIssued_futureOf; [exact H1 | exact Hi | apply step_futureOf].
        + apply step_ids_distinct; assumption. }
    apply H; [simpl; lia | constructor | constructor].
  - destruct (run_idsIssued bindBoolean trace) as [_ Hi].
    unfold idsIssued in Hi. rewrite Forall_forall in Hi. exact Hi.
Qed.

End ServerFacts.

Section ServerLifecycle.

Variable bindBoolean : jsval -> option bool.

Lemma steps_keep_id_absent z post db :
  z < nextId db ->
  (forall t, In t (rows db) -> id t <> z) ->
  forall t, In t (rows (fold_left (step bindBoolean) post db)) -> id t <> z.
Proof.
  revert db. induction post as [|ev post IH]; intros db Hz Habs; simpl.
  - exact Habs.
  - apply IH.
    + destruct (step_futureOf bindBoolean db ev) as [Hn _]. lia.
    + intros t Ht Heq.
      assert (Hin : In z (map id (rows (step bindBoolean db ev))))
        by (rewrite <- Heq; apply in_map, Ht).
      assert (Hno : ~ In z (map id (rows db))).
      { intros H. apply in_map_iff in H. destruct H as [u [Hu Hi]].
        exact (Habs u Hi Hu). }
      destruct (step_ids_shape bindBoolean db ev) as [[H _]|[[H _]|[p [H _]]]].
      * rewrite H in Hin. exact (Hno Hin).
      * rewrite H in Hin. apply in_app_or in Hin.
        destruct Hin as [Hin|[Hin|[]]]; [exact (Hno Hin) | lia].
      * rewrite H in Hin. apply in_map_iff in Hin.
        destruct Hin as [u [Hu Hi]]. apply filter_In in Hi.
        destruct Hi as [Hi _]. exact (Habs u Hi Hu).
Qed.

(** A deleted task does not come back and its id is not given again:
    once DELETE has removed the task with id [z] from a store the server
    can reach, no later sequence of requests leads to a store with a
    task of that id. *)
Theorem deleted_id_never_returns trace paramsId z post :
  parseInt paramsId = Num z ->
  (exists t, In t (rows (run bindBoolean trace)) /\ id t = z) ->
  delete_api_tasks_id paramsId (run bindBoolean trace) =
  Returned (mkResponse 204 NoBody)
           (stateOf (delete_api_tasks_id paramsId (run bindBoolean trace))) /\
  forall t,
    In t (rows (fold_left (step bindBoolean) post
                  (stateOf (delete_api_tasks_id paramsId
                              (run bindBoolean trace))))) ->
    id t <> z.
Proof.
  intros Hn [t0 [Hin0 Hid0]].
  set (db := run bindBoolean trace) in *.
  assert (Hdel : delete_api_tasks_id paramsId db =
                 Returned (mkResponse 204 NoBody)
                   (mkDB (filter (fun t => negb (idEq (Num z) t)) (rows db))
                         (nextId db))).
  { unfold delete_api_tasks_id, tryCatch, bind, deleteTask. rewrite Hn.
    cbn [isNaN].
    assert (Hpos : (0 <? Z.of_nat
                      (List.length (filter (idEq (Num z)) (rows db)))) = true).
    { apply length_pos_iff. exists t0. apply filter_In.
      split; [exact Hin0|]. simpl. apply Z.eqb_eq, Hid0. }
    rewrite (idParameterTaken_stored z (rows db) t0 Hin0 Hid0).
    rewrite Hpos. reflexivity. }
  rewrite Hdel. cbn [stateOf]. split; [reflexivity|].
  apply steps_keep_id_absent.
  - cbn [nextId].
    destruct (run_idsIssued bindBoolean trace) as [_ Hi].
    unfold idsIssued in Hi. rewrite Forall_forall in Hi.
    specialize (Hi t0 Hin0). fold db in Hi. lia.
  - cbn [rows]. intros t Ht Heq. apply filter_In in Ht.
    destruct Ht as [_ Ht]. simpl in Ht.
    apply negb_true_iff, Z.eqb_neq in Ht. exact (Ht Heq).
Qed.

Lemma idParameterTaken_map (f : Task -> Task) n l :
  (forall u, id (f u) = id u) ->
  idParameterTaken n (map f l) = idParameterTaken n l.
Proof.
  intros Hf. destruct n as [|z|neg]; try reflexivity.
  unfold idParameterTaken. f_equal.
  induction l as [|u l IH]; [reflexivity|].
  cbn [map existsb idEq]. rewrite Hf, IH. reflexivity.
Qed.

(** Completing a pending task and reopening it gives the store back:
    when the tasks the path names are pending with no [completedAt],
    [setCompletion(id, true)] followed by [setCompletion(id, false)], at
    any two instants, leaves the store exactly as it was. *)
Theorem complete_then_reopen_restores now1 now2 paramsId z db :
  parseInt paramsId = Num z ->
  (forall u, In u (rows db) -> id u = z ->
             completed u = false /\ completedAt u = None) ->
  stateOf (patch_api_tasks_id bindBoolean now2 paramsId (completionBody false)
             (stateOf (patch_api_tasks_id bindBoolean now1 paramsId
                         (completionBody true) db))) = db.
Proof.
  intros Hn Hpend.
  assert (HN : isNaN (parseInt paramsId) = false) by (rewrite Hn; reflexivity).
  assert (Hstate : forall now c d,
             stateOf (patch_api_tasks_id bindBoolean now paramsId
                        (completionBody c) d) =
             if idParameterTaken (Num z) (rows d)
             then mkDB (map (fun t => if idEq (Num z) t
                                      then withCompletion c
                                             (if c then Some now else None) t
                                      else t) (rows d))
                       (nextId d)
             else d).
  { intros now c d.
    rewrite (patch_numeric bindBoolean now paramsId _ (JBool c))
      by (auto using completionBody_read).
    rewrite stateOf_tryCatch by (intros e d'; reflexivity).
    rewrite stateOf_bind by (intros [t|] d'; reflexivity).
    rewrite Hn.
    destruct (idParameterTaken (Num z) (rows d)) eqn:Ht;
      [|rewrite (updateTask_refused bindBoolean _ _ _ Ht); reflexivity].
    rewrite (updateTask_set bindBoolean _ now (JBool c) c)
      by (try discriminate; try reflexivity; exact Ht).
    reflexivity. }
  rewrite (Hstate now1 true db).
  destruct (idParameterTaken (Num z) (rows db)) eqn:Ht;
    [|rewrite Hstate, Ht; reflexivity].
  rewrite Hstate. cbn [rows nextId].
  rewrite idParameterTaken_map, Ht
    by (intros u; destruct (idEq (Num z) u); reflexivity).
  destruct db as [rs nx]. cbn [rows nextId] in *. f_equal.
  rewrite map_map. rewrite <- (map_id rs) at 2.
  apply map_ext_in. intros u Hu.
  destruct (idEq (Num z) u) eqn:E.
  - cbn [idEq withCompletion id]. simpl in E. rewrite E.
    apply Z.eqb_eq in E. destruct (Hpend u Hu E) as [Hc Hca].
    destruct u as [i ti c cr ca]; simpl in *. subst. reflexivity.
  - rewrite E. reflexivity.
Qed.

(** A body that [updateTaskSchema] would accept cannot break the
    lifecycle invariant: if every stored task has [completed] true
    exactly when [completedAt] is present, then so it is after PATCH
    with such a body, whatever the path id and whatever the driver. *)
Theorem schema_valid_patch_keeps_invariant now paramsId reqBody db :
  updateTaskSchema_accepts reqBody = true ->
  lifecycleInvariant db ->
  lifecycleInvariant
    (stateOf (patch_api_tasks_id bindBoolean now paramsId reqBody db)).
Proof.
  intros Hacc Hinv.
  destruct reqBody; try discriminate Hacc.
  cbn [updateTaskSchema_accepts] in Hacc.
  destruct (isNaN (parseInt paramsId)) eqn:HN.
  - unfold patch_api_tasks_id, tryCatch. rewrite HN. exact Hinv.
  - rewrite (patch_numeric bindBoolean now paramsId (JObj fields)
               (lookupField fields "completed")) by auto.
    rewrite stateOf_tryCatch by (intros e d; reflexivity).
    rewrite stateOf_bind by (intros [t|] d; reflexivity).
    destruct (lookupField fields "completed") as [| |c| | | |];
      try discriminate Hacc.
    + exact Hinv.
    + destruct (idParameterTaken (parseInt paramsId) (rows db)) eqn:Htk;
        [|rewrite (updateTask_refused bindBoolean _ _ _ Htk); exact Hinv].
      rewrite (updateTask_set bindBoolean _ now (JBool c) c)
        by (try discriminate; try reflexivity; exact Htk).
      cbv zeta. cbn [stateOf]. intros t Ht. cbn [rows] in Ht.
      apply in_map_iff in Ht. destruct Ht as [u [<- Hu]].
      destruct (idEq (parseInt paramsId) u); [|apply Hinv, Hu].
      unfold stampedIffCompleted; simpl.
      destruct c; simpl; split; congruence.
Qed.

End ServerLifecycle.


(** * Ids between the client and the server *)

Lemma decimalValueFrom_uint_acc d acc :
  decimalValueFrom (Zpos acc) (NilEmpty.string_of_uint d) =
  Zpos (Pos.of_uint_acc d acc).
Proof.
  revert acc.
  induction d as [|d IH|d IH|d IH|d IH|d IH|d IH|d IH|d IH|d IH|d IH];
    intros acc;
    cbn [NilEmpty.string_of_uint decimalValueFrom Pos.of_uint_acc];
    [reflexivity|..];
    rewrite <- IH; f_equal;
    match goal with
    | |- context [Z.of_nat (nat_of_ascii ?c)] =>
        let v := eval vm_compute in (Z.of_nat (nat_of_ascii c)) in
        change (Z.of_nat (nat_of_ascii c)) with v
    end; lia.
Qed.

Lemma decimalValue_uint d :
  decimalValue (NilEmpty.string_of_uint d) = Z.of_N (Pos.of_uint d).
Proof.
  unfold decimalValue.
  induction d as [|d IH|d IH|d IH|d IH|d IH|d IH|d IH|d IH|d IH|d IH];
    cbn [NilEmpty.string_of_uint decimalValueFrom Pos.of_uint];
    [reflexivity | exact IH |..];
    cbn [Z.of_N]; rewrite <- decimalValueFrom_uint_acc; reflexivity.
Qed.

Lemma allDecimalDigits_uint d :
  allDecimalDigits (NilEmpty.string_of_uint d) = true.
Proof.
  induction d; cbn [NilEmpty.string_of_uint allDecimalDigits];
    [reflexivity|..]; rewrite IHd; reflexivity.
Qed.

Lemma numberToString_positive p :
  numberToString (Zpos p) = NilEmpty.string_of_uint (Pos.to_uint p) /\
  numberToString (Zpos p) <> "".
Proof.
  unfold numberToString. cbn [Z.to_int NilZero.string_of_int].
  pose proof (DecimalPos.Unsigned.to_uint_nonnil p) as Hnil.
  unfold NilZero.string_of_uint.
  destruct (Pos.to_uint p); try congruence;
    (split; [reflexivity | discriminate]).
Qed.

(** The text of a non-negative integer: decimal digits, at least one,
    that read the integer back. *)
Lemma numberToString_digits n :
  0 <= n ->
  numberToString n <> "" /\
  allDecimalDigits (numberToString n) = true /\
  decimalValue (numberToString n) = n.
Proof.
  intros Hn. destruct n as [|p|p]; [| |lia].
  - repeat split. discriminate.
  - destruct (numberToString_positive p) as [-> Hne].
    split; [exact Hne|]. split; [apply allDecimalDigits_uint|].
    rewrite decimalValue_uint, DecimalPos.Unsigned.of_to. reflexivity.
Qed.

Lemma parseInt_of_text n :
  0 <= n < 2 ^ 53 ->
  parseInt (numberToString n) = Num n.
Proof.
  intros [H0 H1].
  destruct (numberToString_digits n H0) as [Hne [Hd Hv]].
  rewrite <- (append_empty_r (numberToString n)).
  rewrite parseInt_decimal_prefix; try assumption.
  - rewrite Hv. reflexivity.
  - exact I.
  - rewrite append_empty_r. apply hasHexPrefix_digits, Hd.
  - rewrite Hv. exact H1.
Qed.

(** The id the client writes into the path is the id the server reads:
    for an integer from 0 up to 2^53 - 1, [parseInt] of its text is the
    integer itself, so the path is never refused as non-numeric, and two
    such integers with the same text are equal. *)
Theorem path_id_text_round_trip n :
  0 <= n < 2 ^ 53 ->
  parseInt (numberToString n) = Num n /\
  isNaN (parseInt (numberToString n)) = false /\
  forall m, 0 <= m < 2 ^ 53 -> numberToString m = numberToString n -> m = n.
Proof.
  intros Hn. pose proof (parseInt_of_text n Hn) as H.
  split; [exact H|]. split; [rewrite H; reflexivity|].
  intros m Hm Heq. pose proof (parseInt_of_text m Hm) as H'.
  rewrite Heq, H in H'. congruence.
Qed.

(** * The client against the server *)

Section ClientFacts.

Variable bindBoolean : jsval -> option bool.

(** [toggleTask] on a task as the store holds it: the server answers
    200, the mutation is fulfilled, and the store then holds the task
    with [completed] negated and [completedAt] set to the instant of the
    request or cleared to match; toggling the task it returned brings
    [completed] back to what it was. *)
Theorem toggleTask_flips_completion now now' t db :
  0 <= id t < 2 ^ 53 ->
  findTask (id t) db = Some t ->
  exists t' db',
    toggleTask bindBoolean now (id t) (completed t) db =
    Returned (Fulfilled (mkResponse 200 (TaskJson t'))) db' /\
    t' = withCompletion (negb (completed t))
           (if completed t then None else Some now) t /\
    findTask (id t) db' = Some t' /\
    exists t'' db'',
      toggleTask bindBoolean now' (id t') (completed t') db' =
      Returned (Fulfilled (mkResponse 200 (TaskJson t''))) db'' /\
      completed t'' = completed t /\
      findTask (id t) db'' = Some t''.
Proof.
  intros Hid Hf.
  pose proof (parseInt_of_text (id t) Hid) as Hp.
  assert (Htoggle : forall at_ u d,
             id u = id t -> findTask (id t) d = Some u ->
             toggleTask bindBoolean at_ (id u) (completed u) d =
             Returned
               (Fulfilled
                  (mkResponse 200
                     (TaskJson
                        (withCompletion (negb (completed u))
                           (if negb (completed u) then Some at_ else None) u))))
               (mkDB (map (fun w => if id w =? id t
                                    then withCompletion (negb (completed u))
                                           (if negb (completed u)
                                            then Some at_ else None) w
                                    else w) (rows d))
                     (nextId d)) /\
             findTask (id t)
               (mkDB (map (fun w => if id w =? id t
                                    then withCompletion (negb (completed u))
                                           (if negb (completed u)
                                            then Some at_ else None) w
                                    else w) (rows d))
                     (nextId d)) =
             Some (withCompletion (negb (completed u))
                     (if negb (completed u) then Some at_ else None) u)).
  { intros at_ u d Hu Hfu. rewrite Hu.
    destruct (patch_hit bindBoolean at_ (numberToString (id t))
                (completionBody (negb (completed u)))
                (JBool (negb (completed u))) (negb (completed u))
                (id t) u d) as [Hpatch Hfind];
      try assumption; try reflexivity; try discriminate.
    split; [|exact Hfind].
    unfold toggleTask, updateTaskMutation, apiRequest.
    unfold bind at 1. cbn [handle]. rewrite Hpatch. reflexivity. }
  destruct (Htoggle now t db eq_refl Hf) as [H1 F1].
  eexists; eexists. split; [exact H1|].
  split; [destruct (completed t); reflexivity|].
  split; [exact F1|].
  set (t' := withCompletion (negb (completed t))
               (if negb (completed t) then Some now else None) t) in *.
  destruct (Htoggle now' t' _ eq_refl F1) as [H2 F2].
  eexists; eexists. split; [exact H2|].
  split; [simpl; apply negb_involutive | exact F2].
Qed.


(** Deleting from the client: nothing is sent when the user declines
    the confirmation; otherwise the mutation is fulfilled with 204 and
    the tasks of that id are gone when the store holds one; when the
    store holds none it is rejected, the store unchanged, with 404 for
    an id the integer column takes and with 500 for an id beyond it. *)
Theorem handleDeleteTask_outcomes confirmed now z db :
  0 <= z < 2 ^ 53 ->
  (confirmed = false ->
   handleDeleteTask bindBoolean confirmed now z db = Returned None db) /\
  (confirmed = true ->
   (exists t, In t (rows db) /\ id t = z) ->
   handleDeleteTask bindBoolean confirmed now z db =
   Returned (Some (Fulfilled (mkResponse 204 NoBody)))
            (mkDB (filter (fun t => negb (id t =? z)) (rows db)) (nextId db))) /\
  (confirmed = true ->
   (forall t, In t (rows db) -> id t <> z) ->
   inInt4 z = true ->
   handleDeleteTask bindBoolean confirmed now z db =
   Returned
     (Some (Rejected 404 (MessageJson "Task not found" false))) db) /\
  (confirmed = true ->
   (forall t, In t (rows db) -> id t <> z) ->
   inInt4 z = false ->
   handleDeleteTask bindBoolean confirmed now z db =
   Returned
     (Some (Rejected 500 (MessageJson "Failed to delete task" false))) db).
Proof.
  intros Hz. pose proof (parseInt_of_text z Hz) as Hp.
  split; [intros ->; reflexivity|].
  split; [|split]; intros -> H;
    unfold handleDeleteTask, deleteTaskMutation, apiRequest, bind;
    cbn [handle]; unfold delete_api_tasks_id, tryCatch, bind;
    rewrite Hp; cbn [isNaN].
  - destruct H as [t [Hin Hid]].
    rewrite (deleteTask_taken z db (idParameterTaken_stored z _ t Hin Hid)).
    assert (Hpos : (0 <? Z.of_nat
                      (List.length (filter (fun t => id t =? z) (rows db))))
                   = true).
    { apply length_pos_iff. exists t.
      apply filter_In. split; [exact Hin | apply Z.eqb_eq, Hid]. }
    rewrite Hpos. reflexivity.
  - intros Hr. rewrite (deleteTask_taken z db (idParameterTaken_range z _ Hr)).
    rewrite (filter_none (fun t => id t =? z))
      by (intros t Ht; apply Z.eqb_neq, H, Ht).
    rewrite filter_all
      by (intros t Ht; apply negb_true_iff, Z.eqb_neq, H, Ht).
    destruct db; reflexivity.
  - intros Hr. unfold deleteTask.
    rewrite (idParameterTaken_missing z _ Hr H). reflexivity.
Qed.

End ClientFacts.

(** * The home page *)

Lemma compareTasks_precedes a b :
  (compareTasks a b <=? 0) = orderBy_completed_createdAt a b.
Proof.
  unfold compareTasks, orderBy_completed_createdAt.
  destruct (completed a), (completed b); simpl; try reflexivity;
    apply eq_true_iff_eq; rewrite !Z.leb_le; lia.
Qed.

Lemma orderBy_ext le1 le2 l :
  (forall a b, le1 a b = le2 a b) -> orderBy le1 l = orderBy le2 l.
Proof.
  intros H. induction l as [|t rest IH]; simpl; [reflexivity|].
  rewrite IH. generalize (orderBy le2 rest). intros s.
  induction s as [|u s IHs]; simpl; [reflexivity|].
  rewrite H, IHs. reflexivity.
Qed.

Lemma orderBy_of_sorted l :
  StronglySorted listPrecedes l ->
  orderBy orderBy_completed_createdAt l = l.
Proof.
  induction 1 as [|t l Hs IH Hall]; simpl; [reflexivity|].
  rewrite IH. destruct l as [|u r]; [reflexivity|]. simpl.
  inversion Hall as [|x xs Htu _]; subst.
  apply orderBy_completed_createdAt_spec in Htu. rewrite Htu. reflexivity.
Qed.

Lemma sorted_pending_then_completed l :
  StronglySorted listPrecedes l ->
  l = (filter (fun t => negb (completed t)) l ++
       filter (fun t => completed t) l)%list.
Proof.
  induction 1 as [|t l Hs IH Hall]; simpl; [reflexivity|].
  destruct (completed t) eqn:E; simpl.
  - rewrite Forall_forall in Hall.
    rewrite filter_none, filter_all; [reflexivity | |].
    + intros u Hu. apply (Hall u Hu). exact E.
    + intros u Hu. apply negb_false_iff. apply (Hall u Hu). exact E.
  - f_equal. exact IH.
Qed.

(** The home page keeps the order of the server.  The client's sort
    leaves alone every list that is in the two-key order of [list()],
    whichever way the rows that tie on both keys stand in it, and so it
    leaves alone what [getAllTasks] returned.  On any list it gives a
    rearrangement of the list in that order: the pending section followed
    by the completed one, and the two counters add up to the total. *)
Theorem client_sort_agrees_with_server tasks :
  (StronglySorted listPrecedes tasks -> sortedTasks tasks = tasks) /\
  (forall db db',
      getAllTasks db = Returned tasks db' -> sortedTasks tasks = tasks) /\
  StronglySorted listPrecedes (sortedTasks tasks) /\
  Permutation tasks (sortedTasks tasks) /\
  sortedTasks tasks = (pendingTasks tasks ++ completedTasks tasks)%list /\
  List.length tasks =
  (List.length (pendingTasks tasks) + List.length (completedTasks tasks))%nat.
Proof.
  assert (H1 : forall l,
             sortedTasks l = orderBy orderBy_completed_createdAt l)
    by (intros l; apply orderBy_ext, compareTasks_precedes).
  assert (H3 : sortedTasks tasks =
               (pendingTasks tasks ++ completedTasks tasks)%list).
  { unfold pendingTasks, completedTasks.
    apply sorted_pending_then_completed. rewrite H1. apply orderBy_sorted. }
  split; [intros Hs; rewrite H1; apply orderBy_of_sorted, Hs|].
  split.
  { intros db db' Hget. unfold getAllTasks in Hget.
    injection Hget as Hl _. subst tasks.
    rewrite H1. apply orderBy_of_sorted, orderBy_sorted. }
  split; [rewrite H1; apply orderBy_sorted|].
  split; [rewrite H1; apply Permutation_sym, orderBy_perm|].
  split; [exact H3|].
  rewrite <- length_app, <- H3, H1.
  symmetry. apply Permutation_length, orderBy_perm.
Qed.

(** [formatTimeAgo] by the age of the task: under an hour, which
    includes a creation time ahead of the client's clock, it says
    "Just now"; from one hour to a day it counts whole hours, from 1 to
    23; from a day on it counts whole days, and the days are the whole
    days of the age itself. *)
Theorem formatTimeAgo_ranges nowMs pastMs :
  let age := nowMs - pastMs in
  (age < 3600000 -> formatTimeAgo nowMs pastMs = "Just now") /\
  (3600000 <= age < 7200000 -> formatTimeAgo nowMs pastMs = "1 hour ago") /\
  (7200000 <= age < 86400000 ->
   formatTimeAgo nowMs pastMs = numberToString (age / 3600000) ++ " hours ago" /\
   2 <= age / 3600000 <= 23) /\
  (86400000 <= age < 172800000 -> formatTimeAgo nowMs pastMs = "1 day ago") /\
  (172800000 <= age ->
   formatTimeAgo nowMs pastMs = numberToString (age / 86400000) ++ " days ago" /\
   2 <= age / 86400000).
Proof.
  cbv zeta. unfold formatTimeAgo.
  change (1000 * 60 * 60) with 3600000.
  set (age := nowMs - pastMs).
  assert (Hdays : age / 3600000 / 24 = age / 86400000)
    by (rewrite Zdiv_Zdiv by lia; reflexivity).
  rewrite Hdays.
  assert (Hh : forall k, k * 3600000 <= age <-> k <= age / 3600000)
    by (intros k; split; intros H;
        [apply Z.div_le_lower_bound; lia
        | pose proof (Z.mul_div_le age 3600000 ltac:(lia)); nia]).
  assert (Hd : forall k, k * 86400000 <= age <-> k <= age / 86400000)
    by (intros k; split; intros H;
        [apply Z.div_le_lower_bound; lia
        | pose proof (Z.mul_div_le age 86400000 ltac:(lia)); nia]).
  repeat split.
  - intros H.
    assert (age / 86400000 <= 0)
      by (destruct (Z.le_gt_cases 1 (age / 86400000)) as [C|C];
          [apply Hd in C; lia | lia]).
    assert (age / 3600000 <= 0)
      by (destruct (Z.le_gt_cases 1 (age / 3600000)) as [C|C];
          [apply Hh in C; lia | lia]).
    destruct (0 <? age / 86400000) eqn:E1; [apply Z.ltb_lt in E1; lia|].
    destruct (0 <? age / 3600000) eqn:E2; [apply Z.ltb_lt in E2; lia|].
    reflexivity.
  - intros [H1 H2].
    assert (age / 86400000 <= 0)
      by (destruct (Z.le_gt_cases 1 (age / 86400000)) as [C|C];
          [apply Hd in C; lia | lia]).
    assert (age / 3600000 = 1).
    { assert (1 <= age / 3600000) by (apply Hh; lia).
      destruct (Z.le_gt_cases 2 (age / 3600000)) as [C|C];
        [apply Hh in C; lia | lia]. }
    destruct (0 <? age / 86400000) eqn:E1; [apply Z.ltb_lt in E1; lia|].
    replace (age / 3600000) with 1 by lia. reflexivity.
  - assert (age / 86400000 <= 0)
      by (destruct (Z.le_gt_cases 1 (age / 86400000)) as [C|C];
          [apply Hd in C; lia | lia]).
    assert (2 <= age / 3600000) by (apply Hh; lia).
    destruct (0 <? age / 86400000) eqn:E1; [apply Z.ltb_lt in E1; lia|].
    destruct (0 <? age / 3600000) eqn:E2; [|apply Z.ltb_ge in E2; lia].
    destruct (age / 3600000 =? 1) eqn:E3; [apply Z.eqb_eq in E3; lia|].
    reflexivity.
  - apply Hh. lia.
  - destruct (Z.le_gt_cases 24 (age / 3600000)) as [C|C];
      [apply Hh in C; lia | lia].
  - intros [H1 H2].
    assert (age / 86400000 = 1).
    { assert (1 <= age / 86400000) by (apply Hd; lia).
      destruct (Z.le_gt_cases 2 (age / 86400000)) as [C|C];
        [apply Hd in C; lia | lia]. }
    replace (age / 86400000) with 1 by lia. reflexivity.
  - assert (2 <= age / 86400000) by (apply Hd; lia).
    destruct (0 <? age / 86400000) eqn:E1; [|apply Z.ltb_ge in E1; lia].
    destruct (age / 86400000 =? 1) eqn:E3; [apply Z.eqb_eq in E3; lia|].
    reflexivity.
  - apply Hd. lia.
Qed.

(** * The request log *)

Lemma truncateLogLine_spec line :
  (List.length (truncateLogLine line) <= 80)%nat /\
  ((List.length line <= 80)%nat -> truncateLogLine line = line) /\
  ((80 < List.length line)%nat ->
   List.length (truncateLogLine line) = 80%nat /\
   firstn 79 (truncateLogLine line) = firstn 79 line /\
   nth_error (truncateLogLine line) 79 = Some ellipsis).
Proof.
  unfold truncateLogLine.
  destruct (80 <? Z.of_nat (List.length line)) eqn:E.
  - apply Z.ltb_lt in E.
    assert (Hl : List.length (firstn 79 line) = 79%nat)
      by (rewrite length_firstn; lia).
    split; [rewrite length_app, Hl; simpl; lia|].
    split; [intros H; lia|]. intros _.
    split; [rewrite length_app, Hl; reflexivity|].
    split.
    + rewrite firstn_app, Hl, Nat.sub_diag, firstn_O, app_nil_r.
      rewrite firstn_firstn, Nat.min_id. reflexivity.
    + rewrite nth_error_app2 by lia. rewrite Hl, Nat.sub_diag. reflexivity.
  - apply Z.ltb_ge in E.
    split; [lia|]. split; [reflexivity | intros H; lia].
Qed.

(** The logging middleware: a request whose path does not begin with
    "/api" is not logged; any other gives one message of at most 80
    code units, which is the whole line when that fits and otherwise
    its first 79 code units followed by an ellipsis, whatever the body
    of the response serialises to. *)
Theorem requestLogger_bounded stringify method path res duration :
  let full := codeUnits (fullLogLine stringify method path res duration) in
  (startsWithApi path = false ->
   requestLogger stringify method path res duration = []) /\
  (startsWithApi path = true ->
   exists msg,
     requestLogger stringify method path res duration = [msg] /\
     (List.length msg <= 80)%nat /\
     ((List.length full <= 80)%nat -> msg = full) /\
     ((80 < List.length full)%nat ->
      List.length msg = 80%nat /\
      firstn 79 msg = firstn 79 full /\
      nth_error msg 79 = Some ellipsis)).
Proof.
  cbv zeta. unfold requestLogger. split; intros ->; [reflexivity|].
  eexists. split; [reflexivity|]. apply truncateLogLine_spec.
Qed.

(** * Toasts *)

Lemma reducer_length m action :
  (List.length (memoryState m) <= TOAST_LIMIT)%nat ->
  (List.length (memoryState (reducer m action)) <= TOAST_LIMIT)%nat.
Proof.
  intros H. destruct action as [t|p|i|[i|]]; cbn [reducer memoryState].
  - rewrite length_firstn. apply Nat.le_min_l.
  - rewrite length_map. exact H.
  - rewrite length_map. exact H.
  - eapply Nat.le_trans; [apply filter_length_le | exact H].
  - apply Nat.le_0_l.
Qed.

(** At most one toast at a time: adding a toast leaves that toast alone
    on display, whatever was shown before, and no sequence of actions
    from the initial state ever shows more than [TOAST_LIMIT] toasts. *)
Theorem at_most_one_toast actions m t :
  memoryState (reducer m (ADD_TOAST t)) = [t] /\
  (List.length (memoryState (fold_left reducer actions initialToastModule))
   <= TOAST_LIMIT)%nat.
Proof.
  split; [reflexivity|].
  assert (H : forall m0,
             (List.length (memoryState m0) <= TOAST_LIMIT)%nat ->
             (List.length (memoryState (fold_left reducer actions m0))
              <= TOAST_LIMIT)%nat).
  { induction actions as [|a actions IH]; intros m0 H0; simpl; [exact H0|].
    apply IH, reducer_length, H0. }
  apply H. apply Nat.le_0_l.
Qed.

Lemma addToRemoveQueue_spec i m :
  NoDup (toastTimeouts m) ->
  let m' := addToRemoveQueue i m in
  In i (toastTimeouts m') /\ NoDup (toastTimeouts m') /\
  count m' = count m /\ memoryState m' = memoryState m /\
  addToRemoveQueue i m' = m'.
Proof.
  intros Hnd. cbv zeta. unfold addToRemoveQueue.
  destruct (existsb (String.eqb i) (toastTimeouts m)) eqn:E.
  - rewrite E. repeat split; try assumption.
    apply existsb_exists in E. destruct E as [k [Hk Heq]].
    apply String.eqb_eq in Heq. subst. exact Hk.
  - cbn [toastTimeouts count memoryState].
    assert (Hin : In i (toastTimeouts m ++ [i]))
      by (apply in_or_app; right; left; reflexivity).
    assert (Hex : existsb (String.eqb i) (toastTimeouts m ++ [i]) = true)
      by (apply existsb_exists; exists i; split;
          [exact Hin | apply String.eqb_refl]).
    rewrite Hex. repeat split; try assumption.
    apply NoDup_app; [exact Hnd | repeat constructor; auto |].
    intros x Hx [Hxi|[]]. subst x.
    assert (Hc : existsb (String.eqb i) (toastTimeouts m) = true)
      by (apply existsb_exists; exists i; split;
          [exact Hx | apply String.eqb_refl]).
    congruence.
Qed.

(** Dismissing a toast by its id closes it and starts one removal timer,
    never a second one: the toasts with that id get [open] false and the
    others are untouched, the id is among the pending timers, exactly
    once, and dismissing again changes nothing.  When the timer fires,
    the toast is gone from the display and the timer from the map. *)
Theorem dismiss_closes_and_queues_once i m :
  i <> "" ->
  NoDup (toastTimeouts m) ->
  let m' := dismiss i m in
  memoryState m' =
  map (fun t => if (toast_id t =? i)%string then closeToast t else t)
      (memoryState m) /\
  In i (toastTimeouts m') /\ NoDup (toastTimeouts m') /\
  dismiss i m' = m' /\
  let m'' := removeTimerFires i m' in
  ~ In i (toastTimeouts m'') /\
  (forall t, In t (memoryState m'') -> toast_id t <> i) /\
  (forall t, In t (memoryState m) -> toast_id t <> i -> In t (memoryState m'')).
Proof.
  intros Hi Hnd. cbv zeta. unfold dismiss, dispatch.
  assert (Hne : (i =? "")%string = false) by (apply String.eqb_neq, Hi).
  destruct (addToRemoveQueue_spec i m Hnd) as [Hin [Hnd' [Hc [Hm Hidem]]]].
  cbv zeta in Hin, Hnd', Hc, Hm, Hidem.
  assert (Hstate : forall m0,
             reducer m0 (DISMISS_TOAST (Some i)) =
             mkToastModule (count (addToRemoveQueue i m0))
               (toastTimeouts (addToRemoveQueue i m0))
               (map (fun t => if (toast_id t =? i)%string
                              then closeToast t else t) (memoryState m0)))
    by (intros m0; cbn [reducer]; rewrite Hne; reflexivity).
  rewrite Hstate. cbn [memoryState toastTimeouts].
  split; [reflexivity|]. split; [exact Hin|]. split; [exact Hnd'|].
  split.
  - rewrite Hstate. cbn [memoryState].
    assert (Hq : addToRemoveQueue i
                   (mkToastModule (count (addToRemoveQueue i m))
                      (toastTimeouts (addToRemoveQueue i m))
                      (map (fun t => if (toast_id t =? i)%string
                                     then closeToast t else t)
                           (memoryState m))) =
                 mkToastModule (count (addToRemoveQueue i m))
                   (toastTimeouts (addToRemoveQueue i m))
                   (map (fun t => if (toast_id t =? i)%string
                                  then closeToast t else t)
                        (memoryState m))).
    { unfold addToRemoveQueue at 1. cbn [toastTimeouts].
      assert (Hex : existsb (String.eqb i)
                      (toastTimeouts (addToRemoveQueue i m)) = true)
        by (apply existsb_exists; exists i; split;
            [exact Hin | apply String.eqb_refl]).
      rewrite Hex. reflexivity. }
    rewrite Hq. cbn [count toastTimeouts]. f_equal.
    rewrite map_map. apply map_ext. intros t.
    destruct (toast_id t =? i)%string eqn:E; [|rewrite E; reflexivity].
    cbn [closeToast toast_id]. rewrite E. reflexivity.
  - unfold removeTimerFires, dispatch. cbn [reducer memoryState toastTimeouts].
    split; [|split].
    + intros H. apply filter_In in H. destruct H as [_ H].
      rewrite String.eqb_refl in H. discriminate.
    + intros t Ht. apply filter_In in Ht. destruct Ht as [_ Ht].
      apply negb_true_iff, String.eqb_neq in Ht. exact Ht.
    + intros t Ht Hid. apply filter_In. split.
      * apply in_map_iff. exists t. split; [|exact Ht].
        apply String.eqb_neq in Hid. rewrite Hid. reflexivity.
      * apply negb_true_iff, String.eqb_neq, Hid.
Qed.

Lemma numberToString_inj n m :
  0 <= n < 2 ^ 53 -> 0 <= m < 2 ^ 53 ->
  numberToString n = numberToString m -> n = m.
Proof.
  intros Hn Hm Heq.
  pose proof (parseInt_of_text n Hn) as H1.
  pose proof (parseInt_of_text m Hm) as H2.
  rewrite Heq, H2 in H1. congruence.
Qed.

(** [toast(props)] puts exactly one toast on display, open, with the
    given props and the id it returns, which is the text of the counter
    after the call; the next call returns a different id. *)
Theorem toast_shows_one_fresh_toast props props' m :
  0 <= count m < MAX_SAFE_INTEGER ->
  let i := fst (toast props m) in
  let m' := snd (toast props m) in
  i = numberToString (count m') /\
  memoryState m' =
  [mkToast i (props_title props) (props_description props)
           (props_variant props) (Some true)] /\
  toastTimeouts m' = toastTimeouts m /\
  fst (toast props' m') <> i.
Proof.
  intros Hc. cbv zeta. unfold toast, genId, dispatch.
  cbn [fst snd reducer count memoryState toastTimeouts firstn TOAST_LIMIT].
  repeat split.
  unfold MAX_SAFE_INTEGER in *.
  set (M := 2 ^ 53 - 1) in *.
  assert (HM : 1 < M) by (unfold M; reflexivity).
  assert (H253 : M < 2 ^ 53) by (unfold M; lia).
  pose proof (Z.mod_pos_bound (count m + 1) M ltac:(lia)) as B1.
  pose proof (Z.mod_pos_bound ((count m + 1) mod M + 1) M ltac:(lia)) as B2.
  intros Heq. apply numberToString_inj in Heq; try lia.
  set (c1 := (count m + 1) mod M) in *.
  destruct (Z.eq_dec (c1 + 1) M) as [E|E].
  - rewrite E, Z.mod_same in Heq by lia. lia.
  - rewrite Z.mod_small in Heq by lia. lia.
Qed.

Lemma handle_answers bindBoolean now r db :
  exists res db', handle bindBoolean now r db = Returned res db'.
Proof.
  destruct r as [|reqBody|paramsId reqBody|paramsId]; cbn [handle].
  - eexists; eexists; reflexivity.
  - destruct reqBody as [| |b|n|s|items|fields];
      try (eexists; eexists; reflexivity).
    destruct (lookupField fields "title") as [| |b|n|x|items|fs] eqn:E;
      try (unfold post_api_tasks, tryCatch, bind, insertTaskSchema_parse;
           rewrite E; eexists; eexists; reflexivity).
    destruct (hasNul x) eqn:Hx; eexists; eexists;
      [exact (post_title_refused now x fields db E Hx)
      | exact (post_title_string now x fields db E Hx)].
  - destruct (patch_400_iff_NaN bindBoolean now paramsId reqBody db)
      as [res [db' [H _]]].
    exists res, db'. exact H.
  - destruct (delete_400_iff_NaN paramsId db) as [res [db' [H _]]].
    exists res, db'. exact H.
Qed.

(** The toast after a mutation tells how the request went: once the
    request has settled, exactly one toast is on display, open, and it
    is the destructive error toast exactly when the status of the
    server's answer is outside 200..299. *)
Theorem mutation_toast_matches_outcome bindBoolean now r k db m :
  exists res db' t,
    handle bindBoolean now r db = Returned res db' /\
    apiRequest bindBoolean now r db = Returned (throwIfResNotOk res) db' /\
    memoryState (onSettled k (throwIfResNotOk res) m) = [t] /\
    toast_open t = Some true /\
    (toast_variant t = destructive <-> ~ (200 <= status res <= 299)) /\
    (toast_variant t = None <-> 200 <= status res <= 299).
Proof.
  destruct (handle_answers bindBoolean now r db) as [res [db' H]].
  assert (Hreq : apiRequest bindBoolean now r db =
                 Returned (throwIfResNotOk res) db')
    by (unfold apiRequest, bind; rewrite H; reflexivity).
  unfold throwIfResNotOk, resOk in *.
  destruct ((200 <=? status res) && (status res <=? 299)) eqn:E;
    exists res, db'; eexists; unfold throwIfResNotOk, resOk; rewrite E;
    (split; [exact H|]); (split; [exact Hreq|]).
  - apply andb_true_iff in E. destruct E as [E1 E2].
    apply Z.leb_le in E1, E2.
    split; [reflexivity|]. split; [reflexivity|].
    destruct k as [|[|]|]; cbn; split; split; intros; try lia;
      try discriminate; try reflexivity; exfalso; tauto.
  - assert (Hout : ~ (200 <= status res <= 299)).
    { intros [H1 H2]. apply Z.leb_le in H1, H2. rewrite H1, H2 in E.
      discriminate. }
    split; [reflexivity|]. split; [reflexivity|].
    destruct k as [|[|]|]; cbn; split; split; intros; try reflexivity;
      try discriminate; try tauto.
Qed.

(** * The further properties at concrete inputs *)

Lemma deleted_id_never_returns_witness :
  let trace := [(1, POST_tasks (createBody "a"))] in
  let post := [(2, POST_tasks (createBody "b")); (3, GET_tasks)] in
  parseInt "1" = Num 1 /\
  (exists t, In t (rows (run strictBoolean trace)) /\ id t = 1) /\
  forall t,
    In t (rows (fold_left (step strictBoolean) post
                  (stateOf (delete_api_tasks_id "1"
                              (run strictBoolean trace))))) ->
    id t <> 1.
Proof.
  cbv zeta.
  assert (Hex : exists t,
             In t (rows (run strictBoolean [(1, POST_tasks (createBody "a"))]))
             /\ id t = 1)
    by (eexists; split; [left; reflexivity | reflexivity]).
  split; [reflexivity|]. split; [exact Hex|].
  apply (deleted_id_never_returns strictBoolean
           [(1, POST_tasks (createBody "a"))] "1" 1
           [(2, POST_tasks (createBody "b")); (3, GET_tasks)] eq_refl Hex).
Defined.

Lemma complete_then_reopen_restores_witness :
  let db := mkDB [mkTask 1 "a" false 10 None; mkTask 2 "b" true 11 (Some 12)] 3 in
  parseInt "1" = Num 1 /\
  (forall u, In u (rows db) -> id u = 1 ->
             completed u = false /\ completedAt u = None) /\
  stateOf (patch_api_tasks_id strictBoolean 30 "1" (completionBody false)
             (stateOf (patch_api_tasks_id strictBoolean 20 "1"
                         (completionBody true) db))) = db.
Proof.
  cbv zeta.
  assert (Hp : forall u,
             In u [mkTask 1 "a" false 10 None; mkTask 2 "b" true 11 (Some 12)] ->
             id u = 1 -> completed u = false /\ completedAt u = None).
  { intros u [<-|[<-|[]]] Hu; [split; reflexivity | discriminate Hu]. }
  split; [reflexivity|]. split; [exact Hp|].
  apply (complete_then_reopen_restores strictBoolean 20 30 "1" 1
           (mkDB [mkTask 1 "a" false 10 None; mkTask 2 "b" true 11 (Some 12)] 3)
           eq_refl Hp).
Defined.

Lemma schema_valid_patch_keeps_invariant_witness :
  let db := mkDB [mkTask 1 "a" false 10 None] 2 in
  updateTaskSchema_accepts (completionBody true) = true /\
  lifecycleInvariant db /\
  lifecycleInvariant
    (stateOf (patch_api_tasks_id strictBoolean 20 "1" (completionBody true) db)).
Proof.
  cbv zeta.
  assert (Hinv : lifecycleInvariant (mkDB [mkTask 1 "a" false 10 None] 2)).
  { intros t [<-|[]]. unfold stampedIffCompleted; simpl.
    split; [discriminate | congruence]. }
  split; [reflexivity|]. split; [exact Hinv|].
  apply (schema_valid_patch_keeps_invariant strictBoolean 20 "1"
           (completionBody true) _ eq_refl Hinv).
Defined.

Lemma path_id_text_round_trip_witness :
  0 <= 42 < 2 ^ 53 /\
  parseInt (numberToString 42) = Num 42 /\
  isNaN (parseInt (numberToString 42)) = false /\
  forall m, 0 <= m < 2 ^ 53 -> numberToString m = numberToString 42 -> m = 42.
Proof.
  assert (H : 0 <= 42 < 2 ^ 53) by (split; [discriminate | reflexivity]).
  split; [exact H|]. apply (path_id_text_round_trip 42 H).
Defined.

Lemma toggleTask_flips_completion_witness :
  let t := mkTask 7 "a" false 10 None in
  let db := mkDB [t] 8 in
  0 <= id t < 2 ^ 53 /\ findTask (id t) db = Some t /\
  exists t' db',
    toggleTask strictBoolean 20 (id t) (completed t) db =
    Returned (Fulfilled (mkResponse 200 (TaskJson t'))) db' /\
    t' = withCompletion (negb (completed t))
           (if completed t then None else Some 20) t /\
    findTask (id t) db' = Some t' /\
    exists t'' db'',
      toggleTask strictBoolean 30 (id t') (completed t') db' =
      Returned (Fulfilled (mkResponse 200 (TaskJson t''))) db'' /\
      completed t'' = completed t /\
      findTask (id t) db'' = Some t''.
Proof.
  cbv zeta.
  assert (H : 0 <= id (mkTask 7 "a" false 10 None) < 2 ^ 53)
    by (split; [discriminate | reflexivity]).
  split; [exact H|]. split; [reflexivity|].
  apply (toggleTask_flips_completion strictBoolean 20 30
           (mkTask 7 "a" false 10 None)
           (mkDB [mkTask 7 "a" false 10 None] 8) H eq_refl).
Defined.


Lemma handleDeleteTask_outcomes_witness :
  let db := mkDB [mkTask 1 "a" false 10 None] 2 in
  0 <= 1 < 2 ^ 53 /\
  handleDeleteTask strictBoolean false 20 1 db = Returned None db /\
  (exists t, In t (rows db) /\ id t = 1) /\
  handleDeleteTask strictBoolean true 20 1 db =
  Returned (Some (Fulfilled (mkResponse 204 NoBody)))
           (mkDB (filter (fun t => negb (id t =? 1)) (rows db)) (nextId db)) /\
  (forall t, In t (rows db) -> id t <> 5) /\ inInt4 5 = true /\
  handleDeleteTask strictBoolean true 20 5 db =
  Returned (Some (Rejected 404 (MessageJson "Task not found" false))) db /\
  0 <= 2147483648 < 2 ^ 53 /\
  (forall t, In t (rows db) -> id t <> 2147483648) /\
  inInt4 2147483648 = false /\
  handleDeleteTask strictBoolean true 20 2147483648 db =
  Returned (Some (Rejected 500 (MessageJson "Failed to delete task" false))) db.
Proof.
  cbv zeta.
  pose (db := mkDB [mkTask 1 "a" false 10 None] 2).
  assert (H1 : 0 <= 1 < 2 ^ 53) by (split; [discriminate | reflexivity]).
  assert (H5 : 0 <= 5 < 2 ^ 53) by (split; [discriminate | reflexivity]).
  assert (Hbig : 0 <= 2147483648 < 2 ^ 53)
    by (split; [discriminate | reflexivity]).
  assert (Hex : exists t, In t (rows db) /\ id t = 1)
    by (eexists; split; [left; reflexivity | reflexivity]).
  assert (Hno : forall t, In t (rows db) -> id t <> 5)
    by (intros t [<-|[]]; discriminate).
  assert (Hnobig : forall t, In t (rows db) -> id t <> 2147483648)
    by (intros t [<-|[]]; discriminate).
  split; [exact H1|].
  split; [exact (proj1 (handleDeleteTask_outcomes strictBoolean false 20 1 db H1)
                   eq_refl)|].
  split; [exact Hex|].
  split; [exact (proj1 (proj2 (handleDeleteTask_outcomes strictBoolean true 20 1
                                 db H1)) eq_refl Hex)|].
  split; [exact Hno|]. split; [reflexivity|].
  split; [exact (proj1 (proj2 (proj2 (handleDeleteTask_outcomes strictBoolean
                                        true 20 5 db H5)))
                   eq_refl Hno eq_refl)|].
  split; [exact Hbig|]. split; [exact Hnobig|]. split; [reflexivity|].
  exact (proj2 (proj2 (proj2 (handleDeleteTask_outcomes strictBoolean true 20
                                2147483648 db Hbig)))
           eq_refl Hnobig eq_refl).
Defined.

Lemma client_sort_agrees_with_server_witness :
  let a := mkTask 1 "a" false 10 None in
  let b := mkTask 2 "b" false 10 None in
  let c := mkTask 3 "c" true 30 (Some 40) in
  StronglySorted listPrecedes [b; a; c] /\
  sortedTasks [b; a; c] = [b; a; c] /\
  getAllTasks (mkDB [c; a; b] 4) = Returned [a; b; c] (mkDB [c; a; b] 4) /\
  sortedTasks [a; b; c] = [a; b; c].
Proof.
  cbv zeta.
  assert (Hs : StronglySorted listPrecedes
                 [mkTask 2 "b" false 10 None; mkTask 1 "a" false 10 None;
                  mkTask 3 "c" true 30 (Some 40)]).
  { repeat constructor; simpl; intros; try discriminate; try reflexivity. }
  split; [exact Hs|].
  split; [exact (proj1 (client_sort_agrees_with_server _) Hs)|].
  split; [reflexivity|].
  exact (proj1 (proj2 (client_sort_agrees_with_server
                         [mkTask 1 "a" false 10 None;
                          mkTask 2 "b" false 10 None;
                          mkTask 3 "c" true 30 (Some 40)]))
           (mkDB [mkTask 3 "c" true 30 (Some 40); mkTask 1 "a" false 10 None;
                  mkTask 2 "b" false 10 None] 4)
           (mkDB [mkTask 3 "c" true 30 (Some 40); mkTask 1 "a" false 10 None;
                  mkTask 2 "b" false 10 None] 4)
           eq_refl).
Defined.

Lemma formatTimeAgo_ranges_witness :
  formatTimeAgo 1000 5000 = "Just now" /\
  formatTimeAgo 3600000 0 = "1 hour ago" /\
  formatTimeAgo 18000000 0 = "5 hours ago" /\
  formatTimeAgo 90000000 0 = "1 day ago" /\
  formatTimeAgo 260000000 0 = "3 days ago".
Proof.
  split; [apply (proj1 (formatTimeAgo_ranges 1000 5000)); reflexivity|].
  split; [apply (proj1 (proj2 (formatTimeAgo_ranges 3600000 0)));
          split; [discriminate | reflexivity]|].
  split; [apply (proj1 (proj2 (proj2 (formatTimeAgo_ranges 18000000 0))));
          split; [discriminate | reflexivity]|].
  split; [apply (proj1 (proj2 (proj2 (proj2 (formatTimeAgo_ranges 90000000 0)))));
          split; [discriminate | reflexivity]|].
  apply (proj2 (proj2 (proj2 (proj2 (formatTimeAgo_ranges 260000000 0)))));
    discriminate.
Defined.

Lemma requestLogger_bounded_witness :
  let stringify := fun _ : payload => "{}" in
  let res := mkResponse 404 (MessageJson "Task not found" false) in
  requestLogger stringify "GET" "/index.html" res 3 = [] /\
  requestLogger stringify "PATCH" "/api/tasks/9999" res 3 =
  [codeUnits "PATCH /api/tasks/9999 404 in 3ms :: {}"].
Proof.
  cbv zeta. split.
  - apply (proj1 (requestLogger_bounded (fun _ => "{}") "GET" "/index.html"
                    (mkResponse 404 (MessageJson "Task not found" false)) 3)).
    reflexivity.
  - destruct (proj2 (requestLogger_bounded (fun _ => "{}") "PATCH"
                       "/api/tasks/9999"
                       (mkResponse 404 (MessageJson "Task not found" false)) 3)
                eq_refl) as [msg [Hm [_ [Hfit _]]]].
    rewrite Hm. f_equal. apply Hfit. apply Nat.leb_le. reflexivity.
Defined.

Lemma dismiss_closes_and_queues_once_witness :
  let t := mkToast "1" (Some "Success") None None (Some true) in
  let m := mkToastModule 1 [] [t] in
  "1" <> "" /\ NoDup (toastTimeouts m) /\
  memoryState (dismiss "1" m) = [closeToast t] /\
  In "1" (toastTimeouts (dismiss "1" m)) /\
  dismiss "1" (dismiss "1" m) = dismiss "1" m /\
  ~ In "1" (toastTimeouts (removeTimerFires "1" (dismiss "1" m))).
Proof.
  cbv zeta.
  assert (H1 : "1" <> "") by discriminate.
  assert (H2 : NoDup (toastTimeouts
                        (mkToastModule 1 []
                           [mkToast "1" (Some "Success") None None (Some true)])))
    by constructor.
  split; [exact H1|]. split; [exact H2|].
  destruct (dismiss_closes_and_queues_once "1" _ H1 H2)
    as [Hs [Hin [_ [Hidem [Hgone _]]]]].
  split; [exact Hs|]. split; [exact Hin|]. split; [exact Hidem | exact Hgone].
Defined.

Lemma toast_shows_one_fresh_toast_witness :
  let props := mkToastProps (Some "Success") None None in
  0 <= count initialToastModule < MAX_SAFE_INTEGER /\
  fst (toast props initialToastModule) = "1" /\
  memoryState (snd (toast props initialToastModule)) =
  [mkToast "1" (Some "Success") None None (Some true)] /\
  fst (toast props (snd (toast props initialToastModule))) <> "1".
Proof.
  cbv zeta.
  assert (H : 0 <= count initialToastModule < MAX_SAFE_INTEGER)
    by (split; [discriminate | reflexivity]).
  split; [exact H|].
  destruct (toast_shows_one_fresh_toast
              (mkToastProps (Some "Success") None None)
              (mkToastProps (Some "Success") None None)
              initialToastModule H) as [_ [Hs [_ Hfresh]]].
  split; [reflexivity|]. split; [exact Hs | exact Hfresh].
Defined.
